(** * showTransferDataWeb: the [App] component of [src/App.tsx]

    A shallow embedding of the React component: its [useState] cells, the
    asynchronous [fetchTransfers] handler with its try / catch / finally, the
    synchronous click handlers, and the JSX it returns.

    Conventions of the embedding.
    - The numbers the component handles (page numbers, limits, counts,
      timestamps) have integer values; a number is modelled by the integer it
      holds, a [Z].  [is_double] tells which integers a number can hold;
      [page + 1] and [page - 1] give the nearest such integer
      ([round_double]), and [toString] prints as [Number.prototype.toString]
      does ([Number_toString]).
    - A handler is a program in the monad [M]: it emits the calls it makes
      (state setters, [fetch], [disconnect], [console.error]) in order and
      completes normally or by throwing.  [Await] marks a suspension point;
      what follows it runs in a later task, on the state of that moment.
    - State setters are queued and applied in order ([run]), as React does
      with the updates of one task. *)

From Stdlib Require Import ZArith String Ascii List Bool Lia DecimalString.
From Stdlib Require DecimalPos DecimalZ.
Import ListNotations.
Local Open Scope string_scope.
Local Open Scope list_scope.
Local Open Scope Z_scope.

(** ** Data model *)

(** [type Transfer = { from, to, value: string; timestamp: number }] *)
Record Transfer : Type := mkTransfer {
  from : string;
  to : string;
  value : string;
  timestamp : Z
}.

(** The object held by the [pagination] state cell. *)
Record Pagination : Type := mkPagination {
  page : Z;
  limit : Z;
  total : Z;
  pages : Z
}.

(** The literal [{ page: 1, limit: 10, total: 0, pages: 1 }], used both as the
    initial state and as the fallback of [data.pagination || {...}]. *)
Definition default_pagination : Pagination :=
  {| page := 1; limit := 10; total := 0; pages := 1 |}.

(** ['all' | 'in' | 'out'] *)
Inductive Filter : Type := F_all | F_in | F_out.

Definition Filter_string (f : Filter) : string :=
  match f with
  | F_all => "all"
  | F_in => "in"
  | F_out => "out"
  end.

Definition Filter_eqb (a b : Filter) : bool :=
  match a, b with
  | F_all, F_all | F_in, F_in | F_out, F_out => true
  | _, _ => false
  end.

(** The [useState] cells of [App]. *)
Record AppState : Type := mkAppState {
  transfers : list Transfer;
  pagination : Pagination;
  filter : Filter;
  isLoading : bool;
  fetchError : string;
  selectedTransfer : option Transfer
}.

(** The arguments of the six [useState] calls. *)
Definition initial_state : AppState :=
  {| transfers := [];
     pagination := default_pagination;
     filter := F_all;
     isLoading := false;
     fetchError := "";
     selectedTransfer := None |}.

(** What [useAccount()] returns, as far as [App] reads it. *)
Inductive AccountStatus : Type :=
  connected | connecting | reconnecting | disconnected.

Record Account : Type := mkAccount {
  status : AccountStatus;
  address : option string;
  chainId : option Z
}.

Definition AccountStatus_string (s : AccountStatus) : string :=
  match s with
  | connected => "connected"
  | connecting => "connecting"
  | reconnecting => "reconnecting"
  | disconnected => "disconnected"
  end.

(** ** Values that cross the network boundary *)

(** A value that can be thrown or be the reason of a rejected promise: an
    [Error] instance with its [message], or anything else. *)
Inductive thrown : Type :=
  | JsError (message : string)
  | NonError.

(** What reading a property of the parsed body can give: [undefined] when
    the property is absent, one of JSON's falsy values, or a value of the
    type the state cell declares (always truthy: arrays and objects are). *)
Inductive js_field (A : Type) : Type :=
  | Undefined
  | Null
  | False_
  | Zero
  | EmptyString
  | Val (a : A).
Arguments Undefined {A}.
Arguments Null {A}.
Arguments False_ {A}.
Arguments Zero {A}.
Arguments EmptyString {A}.
Arguments Val {A} a.

Definition truthy {A : Type} (v : js_field A) : bool :=
  match v with
  | Val _ => true
  | _ => false
  end.

(** [v || d] *)
Definition or_default {A : Type} (v : js_field A) (d : A) : A :=
  match v with
  | Val a => a
  | _ => d
  end.

(** The value [response.json()] resolves to: [null], an object with its
    [transfers] and [pagination] members, or any other JSON value (number,
    string, boolean, array), on which both property reads give [undefined]. *)
Inductive json_data : Type :=
  | DataNull
  | DataObject (transfers_member : js_field (list Transfer))
               (pagination_member : js_field Pagination)
  | DataOther.

(** Completion of an evaluation: a value, or a throw. *)
Inductive completion (A : Type) : Type :=
  | Normal (a : A)
  | Throw (e : thrown).
Arguments Normal {A} a.
Arguments Throw {A} e.

(** A [Response]: its status code and what the promise of [json()] settles
    to (a rejection when the body is not JSON). *)
Record Response : Type := mkResponse {
  http_status : Z;
  json : completion json_data
}.

(** [response.ok]: the status is in the range 200 to 299. *)
Definition ok (r : Response) : bool :=
  (200 <=? http_status r) && (http_status r <=? 299).

(** ** Numbers

    A JavaScript number is an IEEE 754 double.  The integers among the
    doubles are all integers up to [2 ^ 53] in absolute value and, above,
    the multiples of the spacing of their binade, below [2 ^ 1024]. *)

(** [Number.MAX_SAFE_INTEGER] and [Number.isSafeInteger]. *)
Definition MAX_SAFE_INTEGER : Z := 2 ^ 53 - 1.

Definition is_safe (n : Z) : Prop := Z.abs n <= MAX_SAFE_INTEGER.

(** The spacing of the doubles around a magnitude [m]. *)
Definition ulp (m : Z) : Z :=
  if m <? 2 ^ 53 then 1 else 2 ^ (Z.log2 m - 52).

(** The integers that a number can hold. *)
Definition is_double (n : Z) : bool :=
  (Z.abs n <? 2 ^ 1024) && (Z.abs n mod ulp (Z.abs n) =? 0).

(** Rounding of a magnitude to the nearest multiple of its spacing, a tie
    going to the multiple with the even significand. *)
Definition round_magnitude (m : Z) : Z :=
  let u := ulp m in
  let q := m / u in
  let r := m mod u in
  if 2 * r <? u then q * u
  else if u <? 2 * r then (q + 1) * u
  else if Z.even q then q * u else (q + 1) * u.

(** The number that an arithmetic operation gives when its exact result is
    the integer [n]: the double nearest to [n].  (From [2 ^ 1024 - 2 ^ 970]
    on the operation gives [Infinity]; one more or one less than a double
    stays below.) *)
Definition round_double (n : Z) : Z := Z.sgn n * round_magnitude (Z.abs n).

(** The decimal numeral of an integer, every digit written. *)
Definition numeral (n : Z) : string := NilZero.string_of_int (Z.to_int n).

(** [Number::toString], step 5: among the decimal numbers that round to the
    double [x], take those with the fewest significant digits, then the one
    closest to [x], then the one whose digits form an even number.  Fewest
    significant digits is most trailing zeros: the search goes through the
    powers of ten [p] downwards and stops at the first one that has a
    multiple rounding to [x]; only the multiples just below and just above
    [x] can. *)
Fixpoint shortest_from (j : nat) (p : Z) (x : Z) : Z :=
  match j with
  | O => x
  | S j' =>
      let lo := x / p * p in
      let hi := lo + p in
      let lo_ok := (0 <? lo) && (round_double lo =? x) in
      let hi_ok := round_double hi =? x in
      if lo_ok && hi_ok then
        if x - lo <? hi - x then lo
        else if hi - x <? x - lo then hi
        else if Z.even (x / p) then lo else hi
      else if lo_ok then lo
      else if hi_ok then hi
      else shortest_from j' (p / 10) x
  end.

(** The search starts at a power of ten above [x]. *)
Definition shortest (x : Z) : Z :=
  let j := Z.log2 x / 3 + 1 in
  shortest_from (Z.to_nat j) (10 ^ j) x.

(** A numeral without its trailing zeros. *)
Fixpoint strip_zeros (s : string) : string :=
  match s with
  | "" => ""
  | String c r =>
      match strip_zeros r with
      | "" => if Ascii.eqb c "0" then "" else String c ""
      | r' => String c r'
      end
  end.

(** The digits [d1 d2 ... dk] as [d1.d2...dk], a single digit as it is. *)
Definition mantissa (sig : string) : string :=
  match sig with
  | String c (String c' r) => String c (String "." (String c' r))
  | _ => sig
  end.

(** [Number::toString], steps 10 to 12: a number of more than 21 digits is
    printed as its significant digits, [e+] and its decimal exponent. *)
Definition exponential (y : Z) : string :=
  let s := numeral y in
  mantissa (strip_zeros s) ++ "e+" ++ numeral (Z.of_nat (String.length s) - 1).

(** [Number::toString], step 6: a number of at most 21 digits is printed
    with all its digits. *)
Definition format_positive (y : Z) : string :=
  if y <? 10 ^ 21 then numeral y else exponential y.

(** [n.toString()] for a number [n] with an integer value. *)
Definition Number_toString (n : Z) : string :=
  match n with
  | 0 => "0"
  | Z.pos _ => format_positive (shortest n)
  | Z.neg _ => "-" ++ format_positive (shortest (- n))
  end.

(** Classes of characters. *)
Definition is_digit (c : ascii) : bool :=
  (48 <=? nat_of_ascii c)%nat && (nat_of_ascii c <=? 57)%nat.

Fixpoint all_digits (s : string) : bool :=
  match s with
  | "" => true
  | String c r => is_digit c && all_digits r
  end.

Fixpoint has_char (c : ascii) (s : string) : bool :=
  match s with
  | "" => false
  | String a r => Ascii.eqb a c || has_char c r
  end.

Fixpoint zeros (n : nat) : string :=
  match n with
  | O => ""
  | S n' => String "0" (zeros n')
  end.

(** ** URL and URLSearchParams *)

Record URL : Type := mkURL {
  href_base : string;
  searchParams : list (string * string)
}.

(** [new URL(s)] for a string without query; the account address is a
    hexadecimal string and brings no [?] or [#]. *)
Definition new_URL (s : string) : URL :=
  {| href_base := s; searchParams := [] |}.

Fixpoint remove_name (name : string) (l : list (string * string))
  : list (string * string) :=
  match l with
  | [] => []
  | (n, v) :: r =>
      if String.eqb n name then remove_name name r
      else (n, v) :: remove_name name r
  end.

(** [URLSearchParams.set]: overwrite the first pair of that name and drop the
    others, or append a new pair. *)
Fixpoint params_set (name val : string) (l : list (string * string))
  : list (string * string) :=
  match l with
  | [] => [(name, val)]
  | (n, v) :: r =>
      if String.eqb n name then (name, val) :: remove_name name r
      else (n, v) :: params_set name val r
  end.

(** [URLSearchParams.get]: the first value of that name, if any. *)
Fixpoint params_get (name : string) (l : list (string * string))
  : option string :=
  match l with
  | [] => None
  | (n, v) :: r => if String.eqb n name then Some v else params_get name r
  end.

Definition searchParams_set (u : URL) (name val : string) : URL :=
  {| href_base := href_base u;
     searchParams := params_set name val (searchParams u) |}.

Definition searchParams_get (u : URL) (name : string) : option string :=
  params_get name (searchParams u).

(** The [application/x-www-form-urlencoded] serialiser: letters, digits and
    [*], [-], [.], [_] are kept, a space becomes [+], and every other byte
    becomes [%] and its two upper-case hexadecimal digits. *)
Definition unreserved (c : ascii) : bool :=
  let n := nat_of_ascii c in
  ((48 <=? n) && (n <=? 57) || (65 <=? n) && (n <=? 90)
   || (97 <=? n) && (n <=? 122)
   || (n =? 42) || (n =? 45) || (n =? 46) || (n =? 95))%nat.

Definition hex_digit (n : nat) : ascii :=
  ascii_of_nat (if (n <? 10)%nat then 48 + n else 55 + n).

Definition percent_encode (c : ascii) : string :=
  if unreserved c then String c ""
  else if Ascii.eqb c " " then "+"
  else String "%" (String (hex_digit (nat_of_ascii c / 16))
                     (String (hex_digit (nat_of_ascii c mod 16)) "")).

Fixpoint urlencode (s : string) : string :=
  match s with
  | "" => ""
  | String c r => percent_encode c ++ urlencode r
  end.

(** Serialisation of the query: the encoded names and values, as
    [name=value] joined by [&]. *)
Fixpoint params_toString (l : list (string * string)) : string :=
  match l with
  | [] => ""
  | [(n, v)] => urlencode n ++ "=" ++ urlencode v
  | (n, v) :: r =>
      urlencode n ++ "=" ++ urlencode v ++ "&" ++ params_toString r
  end.

Definition URL_toString (u : URL) : string :=
  match searchParams u with
  | [] => href_base u
  | l => href_base u ++ "?" ++ params_toString l
  end.

(** [`${account.address}`]: an absent address prints as [undefined]. *)
Definition template_address (a : option string) : string :=
  match a with
  | Some s => s
  | None => "undefined"
  end.

(** ** Handlers as programs *)

(** The calls a handler makes.  The first seven are the setters returned by
    [useState] ([setPagination] takes a value or an updater function); the
    others reach outside the component. *)
Inductive action : Type :=
  | SetTransfers (l : list Transfer)
  | SetPagination (p : Pagination)
  | UpdatePagination (f : Pagination -> Pagination)
  | SetFilter (f : Filter)
  | SetIsLoading (b : bool)
  | SetFetchError (m : string)
  | SetSelectedTransfer (t : option Transfer)
  | CallFetch (url : string)
  | CallDisconnect
  | CallConnect (connector : string)
  | ConsoleError (label : string) (err : thrown)
  | Await.

(** A program emits actions and completes. *)
Definition M (A : Type) : Type := (list action * completion A)%type.

Definition ret {A : Type} (a : A) : M A := ([], Normal a).

Definition bind {A B : Type} (m : M A) (k : A -> M B) : M B :=
  match m with
  | (l, Normal a) => let (l', c) := k a in (l ++ l', c)
  | (l, Throw e) => (l, Throw e)
  end.

Definition throw {A : Type} (e : thrown) : M A := ([], Throw e).

Definition emit (a : action) : M unit := ([a], Normal tt).

(** [await p]: suspend, then continue with what [p] settled to. *)
Definition await {A : Type} (p : completion A) : M A := ([Await], p).

(** [try { body } catch (err) { handler } finally { fin }] *)
Definition try_catch_finally (body : M unit) (handler : thrown -> M unit)
    (fin : M unit) : M unit :=
  let caught :=
    match body with
    | (l, Normal _) => (l, Normal tt)
    | (l, Throw e) => let (l', c) := handler e in (l ++ l', c)
    end in
  let (l, c) := caught in
  let (l', c') := fin in
  (l ++ l', match c' with
            | Normal _ => c
            | Throw e => Throw e
            end).

Notation "x <- m ;; k" := (bind m (fun x => k))
  (at level 61, m at next level, right associativity).
Notation "m ;; k" := (bind m (fun _ => k))
  (at level 61, right associativity).

Definition setTransfers (l : list Transfer) : M unit := emit (SetTransfers l).
Definition setPagination (p : Pagination) : M unit := emit (SetPagination p).
Definition setPagination_with (f : Pagination -> Pagination) : M unit :=
  emit (UpdatePagination f).
Definition setFilter (f : Filter) : M unit := emit (SetFilter f).
Definition setIsLoading (b : bool) : M unit := emit (SetIsLoading b).
Definition setFetchError (m : string) : M unit := emit (SetFetchError m).
Definition setSelectedTransfer (t : option Transfer) : M unit :=
  emit (SetSelectedTransfer t).
Definition console_error (label : string) (err : thrown) : M unit :=
  emit (ConsoleError label err).

(** The message of the [TypeError] of a property read on [null] (V8's
    wording; it differs between engines and nothing below depends on it). *)
Definition null_read_message (prop : string) : string :=
  "Cannot read properties of null (reading '" ++ prop ++ "')".

(** [data.transfers] *)
Definition data_transfers (data : json_data) : M (js_field (list Transfer)) :=
  match data with
  | DataNull => throw (JsError (null_read_message "transfers"))
  | DataObject t _ => ret t
  | DataOther => ret Undefined
  end.

(** [data.pagination] *)
Definition data_pagination (data : json_data) : M (js_field Pagination) :=
  match data with
  | DataNull => throw (JsError (null_read_message "pagination"))
  | DataObject _ p => ret p
  | DataOther => ret Undefined
  end.

(** What the promise returned by a call of [fetch] settles to: a rejection
    (network or transport error) or a response of any status. *)
Definition fetch_api : Type := string -> completion Response.

(** [fetch(url)]: the request goes out, the promise is returned. *)
Definition call_fetch (fetch : fetch_api) (url : string)
  : M (completion Response) :=
  emit (CallFetch url) ;; ret (fetch url).

(** The URL built in lines 44-49, from the values of [account], [pagination]
    and [filter] that the handler closed over. *)
Definition request_url (account : Account) (s : AppState) : URL :=
  let url := new_URL ("http://localhost:3001/api/transfers/"
                      ++ template_address (address account)) in
  let url := searchParams_set url "page"
               (Number_toString (page (pagination s))) in
  let url := searchParams_set url "limit"
               (Number_toString (limit (pagination s))) in
  if negb (Filter_eqb (filter s) F_all)
  then searchParams_set url "type" (Filter_string (filter s))
  else url.

(** [err instanceof Error ? err.message : 'Unknown error'] *)
Definition error_text (err : thrown) : string :=
  match err with
  | JsError m => m
  | NonError => "Unknown error"
  end.

(** [fetchTransfers], lines 40-67; [s] is the state of the render whose
    closure the handler is. *)
Definition fetchTransfers (fetch : fetch_api) (account : Account)
    (s : AppState) : M unit :=
  setIsLoading true ;;
  setFetchError "" ;;
  try_catch_finally
    (let url := request_url account s in
     promise <- call_fetch fetch (URL_toString url) ;;
     response <- await promise ;;
     if negb (ok response)
     then throw (JsError "Network response was not ok")
     else
       data <- await (json response) ;;
       t <- data_transfers data ;;
       setTransfers (or_default t []) ;;
       p <- data_pagination data ;;
       setPagination (or_default p
                        {| page := 1; limit := 10; total := 0; pages := 1 |}))
    (fun err =>
       setFetchError (error_text err) ;;
       console_error "Failed to fetch transfers:" err)
    (setIsLoading false).

(** The other handlers of the JSX. *)

(** [() => disconnect()] *)
Definition onClick_disconnect : M unit := emit CallDisconnect.

(** [() => connect({ connector })] *)
Definition onClick_connect (connector : string) : M unit :=
  emit (CallConnect connector).

(** [() => setFilter('all')], [() => setFilter('in')],
    [() => setFilter('out')] *)
Definition onChange_filter (f : Filter) : M unit := setFilter f.

(** [() => setSelectedTransfer(transfer)] *)
Definition onClick_date (transfer : Transfer) : M unit :=
  setSelectedTransfer (Some transfer).

(** [() => setPagination(prev => ({...prev, page: prev.page - 1}))] *)
Definition onClick_previous : M unit :=
  setPagination_with (fun prev =>
    {| page := round_double (page prev - 1); limit := limit prev;
       total := total prev; pages := pages prev |}).

(** [() => setPagination(prev => ({...prev, page: prev.page + 1}))] *)
Definition onClick_next : M unit :=
  setPagination_with (fun prev =>
    {| page := round_double (page prev + 1); limit := limit prev;
       total := total prev; pages := pages prev |}).

(** [() => setSelectedTransfer(null)] *)
Definition onClick_close : M unit := setSelectedTransfer None.

(** ** Running a handler *)

(** The effect of one call on the state cells. *)
Definition apply_action (a : action) (s : AppState) : AppState :=
  match a with
  | SetTransfers l =>
      mkAppState l (pagination s) (filter s) (isLoading s) (fetchError s)
        (selectedTransfer s)
  | SetPagination p =>
      mkAppState (transfers s) p (filter s) (isLoading s) (fetchError s)
        (selectedTransfer s)
  | UpdatePagination f =>
      mkAppState (transfers s) (f (pagination s)) (filter s) (isLoading s)
        (fetchError s) (selectedTransfer s)
  | SetFilter f =>
      mkAppState (transfers s) (pagination s) f (isLoading s) (fetchError s)
        (selectedTransfer s)
  | SetIsLoading b =>
      mkAppState (transfers s) (pagination s) (filter s) b (fetchError s)
        (selectedTransfer s)
  | SetFetchError m =>
      mkAppState (transfers s) (pagination s) (filter s) (isLoading s) m
        (selectedTransfer s)
  | SetSelectedTransfer t =>
      mkAppState (transfers s) (pagination s) (filter s) (isLoading s)
        (fetchError s) t
  | CallFetch _ | CallDisconnect | CallConnect _ | ConsoleError _ _ | Await =>
      s
  end.

(** The queued updates of one task, applied in order. *)
Definition run (l : list action) (s : AppState) : AppState :=
  fold_left (fun st a => apply_action a st) l s.

(** The actions of a trace up to its first suspension, and those after it. *)
Fixpoint before_await (l : list action) : list action :=
  match l with
  | [] => []
  | Await :: _ => []
  | a :: r => a :: before_await r
  end.

Fixpoint after_await (l : list action) : list action :=
  match l with
  | [] => []
  | Await :: r => r
  | _ :: r => after_await r
  end.

(** The network requests among the actions. *)
Fixpoint requests (l : list action) : list string :=
  match l with
  | [] => []
  | CallFetch u :: r => u :: requests r
  | _ :: r => requests r
  end.

(** The calls that leave the component. *)
Definition is_external (a : action) : bool :=
  match a with
  | CallFetch _ | CallDisconnect | CallConnect _ | ConsoleError _ _ => true
  | _ => false
  end.

(** A synchronous handler, run on the state [s]. *)
Definition handle (h : M unit) (s : AppState) : AppState := run (fst h) s.

(** [fetchTransfers] up to its first [await]: the state after the click. *)
Definition fetch_start (fetch : fetch_api) (account : Account)
    (s : AppState) : AppState :=
  run (before_await (fst (fetchTransfers fetch account s))) s.

(** The rest of that call of [fetchTransfers], run when the promise has
    settled, on the state [s'] of that moment; [s] is still the state the
    handler closed over. *)
Definition fetch_finish (fetch : fetch_api) (account : Account)
    (s s' : AppState) : AppState :=
  run (after_await (fst (fetchTransfers fetch account s))) s'.

(** A call of [fetchTransfers] with nothing else happening meanwhile. *)
Definition fetch_run (fetch : fetch_api) (account : Account)
    (s : AppState) : AppState :=
  fetch_finish fetch account s (fetch_start fetch account s).

(** ** The rendered view *)

(** A [Date] object, by the epoch value it was built from. *)
Inductive js_date : Type := new_Date (ms : Z).

(** One [<tr>] of the table, lines 151-161. *)
Record Row : Type := mkRow {
  cell_from : string;
  cell_to : string;
  cell_value : string;
  cell_date : js_date
}.

Definition render_row (transfer : Transfer) : Row :=
  {| cell_from := from transfer;
     cell_to := to transfer;
     cell_value := value transfer;
     cell_date := new_Date (timestamp transfer) |}.

(** The two buttons and the label of lines 166-182. *)
Record PaginationControls : Type := mkPaginationControls {
  previous_disabled : bool;
  label_page : Z;
  label_pages : Z;
  next_disabled : bool
}.

Definition render_pagination (p : Pagination) : PaginationControls :=
  {| previous_disabled := page p <=? 1;
     label_page := page p;
     label_pages := pages p;
     next_disabled := page p >=? pages p |}.

(** The overlay of lines 186-227. *)
Record Details : Type := mkDetails {
  details_from : string;
  details_to : string;
  details_amount : string;
  details_date : js_date
}.

Definition render_details (selected : Transfer) : Details :=
  {| details_from := from selected;
     details_to := to selected;
     details_amount := value selected;
     details_date := new_Date (timestamp selected * 1000) |}.

(** What [App] returns.  [controls] is the block shown to a connected
    account (Disconnect, Fetch Transfers, and the radio group with the
    checked filter); [history] is the table with its pagination controls. *)
Record View : Type := mkView {
  view_status : string;
  view_address : option string;
  controls : option Filter;
  loading_text : bool;
  error_paragraph : option string;
  history : option (list Row * PaginationControls);
  details : option Details
}.

Definition App (account : Account) (s : AppState) : View :=
  {| view_status := AccountStatus_string (status account);
     view_address := address account;
     controls :=
       match status account with
       | connected => Some (filter s)
       | _ => None
       end;
     loading_text := isLoading s;
     error_paragraph :=
       if String.eqb (fetchError s) "" then None else Some (fetchError s);
     history :=
       if Z.of_nat (length (transfers s)) >? 0
       then Some (map render_row (transfers s),
                  render_pagination (pagination s))
       else None;
     details := option_map render_details (selectedTransfer s) |}.

(** ** The component in its environment *)

(** The wallet connection (owned by the connector library), the state cells,
    the continuations of the calls of [fetchTransfers] that are suspended at
    their [await], and the calls that left the component so far. *)
Record World : Type := mkWorld {
  wallet : Account;
  ui : AppState;
  in_flight : list (list action);
  outside : list action
}.

Definition initial_world (a : Account) : World :=
  {| wallet := a; ui := initial_state; in_flight := []; outside := [] |}.

Definition view (w : World) : View := App (wallet w) (ui w).

(** What can happen: a click on an element of the view, the settling of a
    pending request, or a change of the connection reported by the wallet
    library.  [ClickFetch] carries how the network will answer that call. *)
Inductive event : Type :=
  | ClickFetch (fetch : fetch_api)
  | Settle (i : nat)
  | ChangeFilter (f : Filter)
  | ClickDate (i : nat)
  | ClickPrevious
  | ClickNext
  | ClickClose
  | ClickDisconnect
  | ClickConnect (connector : string)
  | WalletUpdate (a : Account).

Definition remove_nth {A : Type} (i : nat) (l : list A) : list A :=
  firstn i l ++ skipn (S i) l.

(** A synchronous handler runs to its end within the event. *)
Definition sync (h : M unit) (w : World) : World :=
  {| wallet := wallet w;
     ui := handle h (ui w);
     in_flight := in_flight w;
     outside := outside w ++ List.filter is_external (fst h) |}.

(** One event.  An element that is not rendered, or a disabled button,
    dispatches nothing. *)
Definition step (ev : event) (w : World) : World :=
  match ev with
  | ClickFetch fetch =>
      match controls (view w) with
      | Some _ =>
          let tr := fst (fetchTransfers fetch (wallet w) (ui w)) in
          {| wallet := wallet w;
             ui := run (before_await tr) (ui w);
             in_flight := in_flight w ++ [after_await tr];
             outside := outside w ++ List.filter is_external (before_await tr) |}
      | None => w
      end
  | Settle i =>
      match nth_error (in_flight w) i with
      | Some k =>
          {| wallet := wallet w;
             ui := run k (ui w);
             in_flight := remove_nth i (in_flight w);
             outside := outside w ++ List.filter is_external k |}
      | None => w
      end
  | ChangeFilter f =>
      match controls (view w) with
      | Some _ => sync (onChange_filter f) w
      | None => w
      end
  | ClickDate i =>
      match history (view w), nth_error (transfers (ui w)) i with
      | Some _, Some transfer => sync (onClick_date transfer) w
      | _, _ => w
      end
  | ClickPrevious =>
      match history (view w) with
      | Some (_, pc) =>
          if previous_disabled pc then w else sync onClick_previous w
      | None => w
      end
  | ClickNext =>
      match history (view w) with
      | Some (_, pc) =>
          if next_disabled pc then w else sync onClick_next w
      | None => w
      end
  | ClickClose =>
      match details (view w) with
      | Some _ => sync onClick_close w
      | None => w
      end
  | ClickDisconnect =>
      match controls (view w) with
      | Some _ => sync onClick_disconnect w
      | None => w
      end
  | ClickConnect connector => sync (onClick_connect connector) w
  | WalletUpdate a =>
      {| wallet := a; ui := ui w; in_flight := in_flight w;
         outside := outside w |}
  end.

Definition steps (evs : list event) (w : World) : World :=
  fold_left (fun st ev => step ev st) evs w.

(** ** Sample values *)

Definition sample_transfer : Transfer :=
  {| from := "0xA"; to := "0xB"; value := "100"; timestamp := 1000 |}.

Definition sample_account : Account :=
  {| status := connected;
     address := Some "0xf39Fd6e51aad88F6F4ce6aB8827279cffFb92266";
     chainId := Some 31337 |}.

(** A state with one fetched row, page 2 of 3, and an old error message. *)
Definition sample_state : AppState :=
  {| transfers := [sample_transfer];
     pagination := {| page := 2; limit := 10; total := 25; pages := 3 |};
     filter := F_in;
     isLoading := false;
     fetchError := "Failed to fetch";
     selectedTransfer := None |}.

(** The state after the fetch of the scenario of the specification. *)
Definition scenario_state : AppState :=
  {| transfers := [sample_transfer];
     pagination := {| page := 1; limit := 10; total := 1; pages := 1 |};
     filter := F_all;
     isLoading := false;
     fetchError := "";
     selectedTransfer := None |}.

Definition respond (r : Response) : fetch_api := fun _ => Normal r.
Definition reject (e : thrown) : fetch_api := fun _ => Throw e.

(** The actions of [fetchTransfers] up to and including its first
    suspension, and those of its catch and finally blocks. *)
Definition prologue (account : Account) (s : AppState) : list action :=
  [SetIsLoading true; SetFetchError "";
   CallFetch (URL_toString (request_url account s)); Await].

Definition failure_epilogue (err : thrown) : list action :=
  [SetFetchError (error_text err);
   ConsoleError "Failed to fetch transfers:" err;
   SetIsLoading false].

(** The two failures the handler tells apart from a response it reads: the
    promise of [fetch] rejects with [err], or it gives a response that is
    not [ok], for which the handler itself throws. *)
Inductive fetch_fails (fetch : fetch_api) (account : Account) (s : AppState)
  : thrown -> Prop :=
  | fails_transport (e : thrown) :
      fetch (URL_toString (request_url account s)) = Throw e ->
      fetch_fails fetch account s e
  | fails_status (r : Response) :
      fetch (URL_toString (request_url account s)) = Normal r ->
      ok r = false ->
      fetch_fails fetch account s (JsError "Network response was not ok").

(** A body that is not JSON, and the one whose JSON text is [null]. *)
Definition unparsable_200 : Response :=
  {| http_status := 200;
     json := Throw (JsError "Unexpected end of JSON input") |}.

Definition null_200 : Response :=
  {| http_status := 200; json := Normal DataNull |}.

(** The response of the scenario of the specification, and one without
    the [pagination] member. *)
Definition scenario_200 : Response :=
  {| http_status := 200;
     json := Normal (DataObject (Val [sample_transfer])
                       (Val {| page := 1; limit := 10; total := 1;
                               pages := 1 |})) |}.

Definition partial_200 : Response :=
  {| http_status := 200;
     json := Normal (DataObject (Val [sample_transfer; sample_transfer])
                       Undefined) |}.

(** A response of status 500. *)
Definition error_500 : Response :=
  {| http_status := 500; json := Normal DataOther |}.

(** ** Kinds of events and of worlds *)

Definition is_settle (ev : event) : bool :=
  match ev with
  | Settle _ => true
  | _ => false
  end.

Definition is_fetch_click (ev : event) : bool :=
  match ev with
  | ClickFetch _ => true
  | _ => false
  end.

Definition count_fetch_clicks (evs : list event) : nat :=
  length (List.filter is_fetch_click evs).

(** The page is one of the pages the pagination object announces. *)
Definition page_in_range (p : Pagination) : Prop :=
  1 <= page p <= pages p.

(** The page and the page count are numbers. *)
Definition js_pagination (p : Pagination) : Prop :=
  is_double (page p) = true /\ is_double (pages p) = true.

(** A state at page [2 ^ 53] of [2 ^ 53 + 2]. *)
Definition large_page_state : AppState :=
  {| transfers := [sample_transfer];
     pagination := {| page := 9007199254740992; limit := 10;
                      total := 90071992547409940;
                      pages := 9007199254740994 |};
     filter := F_all;
     isLoading := false;
     fetchError := "";
     selectedTransfer := None |}.

(** No suspended continuation will call [fetch]. *)
Definition pending_quiet (w : World) : Prop :=
  Forall (fun k => requests k = []) (in_flight w).

(** Reading a 2xx response throws [e]: [json()] rejects with it, or the body
    is [null] and the read of [data.transfers] throws. *)
Definition body_read_throws (r : Response) (e : thrown) : Prop :=
  json r = Throw e \/
  (json r = Normal DataNull /\ e = JsError (null_read_message "transfers")).

(** A world whose account is connected and that waits for nothing. *)
Definition idle_connected (w : World) : Prop :=
  status (wallet w) = connected /\ in_flight w = [].

(** The world made of an account and a state, with nothing pending. *)
Definition world_of (a : Account) (s : AppState) : World :=
  {| wallet := a; ui := s; in_flight := []; outside := [] |}.

(** ** The traces of [fetchTransfers] *)

Section Traces.

Variable fetch : fetch_api.
Variable account : Account.
Variable s : AppState.

Lemma trace_rejected (e : thrown) :
  fetch (URL_toString (request_url account s)) = Throw e ->
  fst (fetchTransfers fetch account s)
  = prologue account s ++ failure_epilogue e.
Proof.
  intros H. unfold fetchTransfers, call_fetch. cbn. rewrite H. reflexivity.
Qed.

Lemma trace_not_ok (r : Response) :
  fetch (URL_toString (request_url account s)) = Normal r ->
  ok r = false ->
  fst (fetchTransfers fetch account s)
  = prologue account s
    ++ failure_epilogue (JsError "Network response was not ok").
Proof.
  intros H Hok. unfold fetchTransfers, call_fetch. cbn.
  rewrite H. cbn. rewrite Hok. reflexivity.
Qed.

Lemma trace_json_rejected (r : Response) (e : thrown) :
  fetch (URL_toString (request_url account s)) = Normal r ->
  ok r = true -> json r = Throw e ->
  fst (fetchTransfers fetch account s)
  = prologue account s ++ Await :: failure_epilogue e.
Proof.
  intros H Hok Hj. unfold fetchTransfers, call_fetch. cbn.
  rewrite H. cbn. rewrite Hok. cbn. rewrite Hj. reflexivity.
Qed.

Lemma trace_null (r : Response) :
  fetch (URL_toString (request_url account s)) = Normal r ->
  ok r = true -> json r = Normal DataNull ->
  fst (fetchTransfers fetch account s)
  = prologue account s
    ++ Await :: failure_epilogue (JsError (null_read_message "transfers")).
Proof.
  intros H Hok Hj. unfold fetchTransfers, call_fetch. cbn.
  rewrite H. cbn. rewrite Hok. cbn. rewrite Hj. reflexivity.
Qed.

Lemma trace_object (r : Response) (t : js_field (list Transfer))
    (p : js_field Pagination) :
  fetch (URL_toString (request_url account s)) = Normal r ->
  ok r = true -> json r = Normal (DataObject t p) ->
  fst (fetchTransfers fetch account s)
  = prologue account s
    ++ [Await; SetTransfers (or_default t []);
        SetPagination (or_default p default_pagination);
        SetIsLoading false].
Proof.
  intros H Hok Hj. unfold fetchTransfers, call_fetch. cbn.
  rewrite H. cbn. rewrite Hok. cbn. rewrite Hj. reflexivity.
Qed.

Lemma trace_other (r : Response) :
  fetch (URL_toString (request_url account s)) = Normal r ->
  ok r = true -> json r = Normal DataOther ->
  fst (fetchTransfers fetch account s)
  = prologue account s
    ++ [Await; SetTransfers []; SetPagination default_pagination;
        SetIsLoading false].
Proof.
  intros H Hok Hj. unfold fetchTransfers, call_fetch. cbn.
  rewrite H. cbn. rewrite Hok. cbn. rewrite Hj. reflexivity.
Qed.

End Traces.

(** ** The two halves of a call of [fetchTransfers] *)

(** The case analysis that the body of [fetchTransfers] makes on what the
    network gave: rejection, status, parse result, shape of the body. *)
Ltac fetch_cases fetch account s :=
  let r := fresh "r" in
  let e := fresh "e" in
  let Hf := fresh "Hfetch" in
  let Hok := fresh "Hok" in
  let Hj := fresh "Hjson" in
  destruct (fetch (URL_toString (request_url account s))) as [r | e] eqn:Hf;
  [ destruct (ok r) eqn:Hok;
    [ destruct (json r) as [[ | ? ? | ] | ?] eqn:Hj | ]
  | ].

(** Every trace starts with the prologue: what happens before the first
    suspension does not depend on the network. *)
Lemma trace_prologue (fetch : fetch_api) (account : Account) (s : AppState) :
  exists tail,
    fst (fetchTransfers fetch account s) = prologue account s ++ tail.
Proof.
  fetch_cases fetch account s.
  - eexists. eapply trace_null; eassumption.
  - eexists. eapply trace_object; eassumption.
  - eexists. eapply trace_other; eassumption.
  - eexists. eapply trace_json_rejected; eassumption.
  - eexists. eapply trace_not_ok; eassumption.
  - eexists. eapply trace_rejected; eassumption.
Qed.

Lemma fetch_start_eq (fetch : fetch_api) (account : Account) (s : AppState) :
  fetch_start fetch account s
  = mkAppState (transfers s) (pagination s) (filter s) true ""
      (selectedTransfer s).
Proof.
  unfold fetch_start.
  destruct (trace_prologue fetch account s) as [tail ->]. reflexivity.
Qed.

Lemma fetch_finish_rejected (fetch : fetch_api) (account : Account)
    (s s' : AppState) (e : thrown) :
  fetch (URL_toString (request_url account s)) = Throw e ->
  fetch_finish fetch account s s'
  = mkAppState (transfers s') (pagination s') (filter s') false
      (error_text e) (selectedTransfer s').
Proof.
  intros H. unfold fetch_finish. rewrite (trace_rejected _ _ _ _ H).
  reflexivity.
Qed.

Lemma fetch_finish_not_ok (fetch : fetch_api) (account : Account)
    (s s' : AppState) (r : Response) :
  fetch (URL_toString (request_url account s)) = Normal r ->
  ok r = false ->
  fetch_finish fetch account s s'
  = mkAppState (transfers s') (pagination s') (filter s') false
      "Network response was not ok" (selectedTransfer s').
Proof.
  intros H Hok. unfold fetch_finish. rewrite (trace_not_ok _ _ _ _ H Hok).
  reflexivity.
Qed.

Lemma fetch_finish_json_rejected (fetch : fetch_api) (account : Account)
    (s s' : AppState) (r : Response) (e : thrown) :
  fetch (URL_toString (request_url account s)) = Normal r ->
  ok r = true -> json r = Throw e ->
  fetch_finish fetch account s s'
  = mkAppState (transfers s') (pagination s') (filter s') false
      (error_text e) (selectedTransfer s').
Proof.
  intros H Hok Hj. unfold fetch_finish.
  rewrite (trace_json_rejected _ _ _ _ _ H Hok Hj). reflexivity.
Qed.

Lemma fetch_finish_null (fetch : fetch_api) (account : Account)
    (s s' : AppState) (r : Response) :
  fetch (URL_toString (request_url account s)) = Normal r ->
  ok r = true -> json r = Normal DataNull ->
  fetch_finish fetch account s s'
  = mkAppState (transfers s') (pagination s') (filter s') false
      (null_read_message "transfers") (selectedTransfer s').
Proof.
  intros H Hok Hj. unfold fetch_finish.
  rewrite (trace_null _ _ _ _ H Hok Hj). reflexivity.
Qed.

Lemma fetch_finish_object (fetch : fetch_api) (account : Account)
    (s s' : AppState) (r : Response) (t : js_field (list Transfer))
    (p : js_field Pagination) :
  fetch (URL_toString (request_url account s)) = Normal r ->
  ok r = true -> json r = Normal (DataObject t p) ->
  fetch_finish fetch account s s'
  = mkAppState (or_default t []) (or_default p default_pagination)
      (filter s') false (fetchError s') (selectedTransfer s').
Proof.
  intros H Hok Hj. unfold fetch_finish.
  rewrite (trace_object _ _ _ _ _ _ H Hok Hj). reflexivity.
Qed.

Lemma fetch_finish_other (fetch : fetch_api) (account : Account)
    (s s' : AppState) (r : Response) :
  fetch (URL_toString (request_url account s)) = Normal r ->
  ok r = true -> json r = Normal DataOther ->
  fetch_finish fetch account s s'
  = mkAppState [] default_pagination (filter s') false (fetchError s')
      (selectedTransfer s').
Proof.
  intros H Hok Hj. unfold fetch_finish.
  rewrite (trace_other _ _ _ _ H Hok Hj). reflexivity.
Qed.

(** Between the settling of [fetch] and the settling of [json()] the handler
    calls nothing: running the whole continuation in one task, as
    [fetch_finish] and [Settle] do, loses nothing. *)
Lemma nothing_between_awaits (fetch : fetch_api) (account : Account)
    (s : AppState) :
  let k := after_await (fst (fetchTransfers fetch account s)) in
  before_await k = [] \/ after_await k = [].
Proof.
  cbn zeta. fetch_cases fetch account s.
  - rewrite (trace_null _ _ _ _ Hfetch Hok Hjson). now left.
  - rewrite (trace_object _ _ _ _ _ _ Hfetch Hok Hjson). now left.
  - rewrite (trace_other _ _ _ _ Hfetch Hok Hjson). now left.
  - rewrite (trace_json_rejected _ _ _ _ _ Hfetch Hok Hjson). now left.
  - rewrite (trace_not_ok _ _ _ _ Hfetch Hok). now right.
  - rewrite (trace_rejected _ _ _ _ Hfetch). now right.
Qed.

(** [fetchTransfers] catches whatever is thrown: its promise fulfils. *)
Lemma fetchTransfers_fulfils (fetch : fetch_api) (account : Account)
    (s : AppState) :
  snd (fetchTransfers fetch account s) = Normal tt.
Proof.
  unfold fetchTransfers, call_fetch. cbn.
  destruct (fetch _) as [r | e]; cbn; [ | reflexivity ].
  destruct (ok r); cbn; [ | reflexivity ].
  destruct (json r) as [[ | t p | ] | e]; reflexivity.
Qed.

(** ** Numbers: rounding and printing *)

Arguments round_double : simpl never.
Arguments Number_toString : simpl never.

Lemma ulp_small (m : Z) : m < 2 ^ 53 -> ulp m = 1.
Proof.
  intros H. unfold ulp. destruct (Z.ltb_spec m (2 ^ 53)); [reflexivity | lia].
Qed.

Lemma ulp_big (m : Z) :
  2 ^ 53 <= m ->
  ulp m = 2 ^ (Z.log2 m - 52) /\ 53 <= Z.log2 m /\ 0 < ulp m /\
  2 ^ 52 * ulp m <= m < 2 ^ 53 * ulp m.
Proof.
  intros H.
  assert (Hpos : 0 < m) by (change (2 ^ 53) with 9007199254740992 in H; lia).
  assert (He : 53 <= Z.log2 m).
  { change 53 with (Z.log2 (2 ^ 53)). now apply Z.log2_le_mono. }
  destruct (Z.log2_spec m Hpos) as [Hlo Hhi].
  assert (E1 : 2 ^ Z.log2 m = 2 ^ 52 * 2 ^ (Z.log2 m - 52)).
  { rewrite <- Z.pow_add_r by lia. f_equal. lia. }
  assert (E2 : 2 ^ Z.succ (Z.log2 m) = 2 ^ 53 * 2 ^ (Z.log2 m - 52)).
  { rewrite <- Z.pow_add_r by lia. f_equal. lia. }
  assert (Eu : ulp m = 2 ^ (Z.log2 m - 52)).
  { unfold ulp. destruct (Z.ltb_spec m (2 ^ 53)); [lia | reflexivity]. }
  rewrite Eu, <- E1, <- E2. repeat split; try assumption.
  apply Z.pow_pos_nonneg; lia.
Qed.

Lemma ulp_pos (m : Z) : 0 < ulp m.
Proof.
  destruct (Z.lt_ge_cases m (2 ^ 53)) as [H | H].
  - rewrite (ulp_small m H). lia.
  - now destruct (ulp_big m H) as (_ & _ & Hu & _).
Qed.

(** Two numbers of one binade have the same spacing. *)
Lemma ulp_same_binade (m d : Z) :
  2 ^ 53 <= m -> 2 ^ 52 * ulp m <= d < 2 ^ 53 * ulp m -> ulp d = ulp m.
Proof.
  intros Hm Hd.
  destruct (ulp_big m Hm) as (Eu & He & Hu & Hb).
  assert (Hd53 : 2 ^ 53 <= d).
  { change (2 ^ 53) with (2 ^ 52 * 2). nia. }
  destruct (ulp_big d Hd53) as (Eud & _).
  rewrite Eud, Eu.
  assert (E : Z.log2 d = Z.log2 m); [ | now rewrite E ].
  apply Z.log2_unique; [lia | ].
  assert (E1 : 2 ^ Z.log2 m = 2 ^ 52 * 2 ^ (Z.log2 m - 52)).
  { rewrite <- Z.pow_add_r by lia. f_equal. lia. }
  assert (E2 : 2 ^ Z.succ (Z.log2 m) = 2 ^ 53 * 2 ^ (Z.log2 m - 52)).
  { rewrite <- Z.pow_add_r by lia. f_equal. lia. }
  rewrite E1, E2, <- Eu. exact Hd.
Qed.

(** The first number of the next binade has twice the spacing. *)
Lemma ulp_next_binade (m : Z) :
  2 ^ 53 <= m -> ulp (2 ^ 53 * ulp m) = 2 * ulp m.
Proof.
  intros Hm. destruct (ulp_big m Hm) as (Eu & He & Hu & Hb).
  assert (E : 2 ^ 53 * ulp m = 2 ^ (Z.log2 m + 1)).
  { rewrite Eu, <- Z.pow_add_r by lia. f_equal. lia. }
  assert (Hbig : 2 ^ 53 <= 2 ^ (Z.log2 m + 1)).
  { apply Z.pow_le_mono_r; lia. }
  rewrite E. destruct (ulp_big _ Hbig) as (-> & _).
  rewrite Z.log2_pow2 by lia. rewrite Eu.
  replace (Z.log2 m + 1 - 52) with (1 + (Z.log2 m - 52)) by lia.
  rewrite Z.pow_add_r by lia. reflexivity.
Qed.

Lemma is_double_spec (n : Z) :
  is_double n = true <->
  Z.abs n < 2 ^ 1024 /\ Z.abs n mod ulp (Z.abs n) = 0.
Proof.
  unfold is_double. rewrite andb_true_iff, Z.ltb_lt, Z.eqb_eq. reflexivity.
Qed.

Lemma round_magnitude_cases (m : Z) :
  0 <= m ->
  (m mod ulp m = 0 /\ round_magnitude m = m) \/
  (m mod ulp m <> 0 /\
   (round_magnitude m = m / ulp m * ulp m \/
    round_magnitude m = (m / ulp m + 1) * ulp m)).
Proof.
  intros Hm. pose proof (ulp_pos m) as Hu.
  destruct (Z.eq_dec (m mod ulp m) 0) as [E | E].
  - left. split; [exact E | ]. unfold round_magnitude. rewrite E.
    destruct (Z.ltb_spec (2 * 0) (ulp m)); [ | lia ].
    pose proof (Z.div_mod m (ulp m)). lia.
  - right. split; [exact E | ]. unfold round_magnitude.
    destruct (2 * (m mod ulp m) <? ulp m); [now left | ].
    destruct (ulp m <? 2 * (m mod ulp m)); [now right | ].
    destruct (Z.even (m / ulp m)); [now left | now right].
Qed.

Lemma floor_grid (m : Z) :
  0 <= m -> m / ulp m * ulp m <= m < (m / ulp m + 1) * ulp m.
Proof.
  intros Hm. pose proof (ulp_pos m) as Hu.
  pose proof (Z.div_mod m (ulp m)). pose proof (Z.mod_pos_bound m (ulp m) Hu).
  nia.
Qed.

(** A double below [m] is at most the grid point below [m]. *)
Lemma double_below (d m : Z) :
  is_double d = true -> 0 <= d <= m -> d <= m / ulp m * ulp m.
Proof.
  intros Hd [H0 Hle]. apply is_double_spec in Hd as [_ Hmod].
  rewrite Z.abs_eq in Hmod by exact H0.
  destruct (Z.lt_ge_cases m (2 ^ 53)) as [Hs | Hb].
  - rewrite (ulp_small m Hs). rewrite Z.div_1_r. lia.
  - destruct (ulp_big m Hb) as (_ & _ & Hu & Hlo & Hhi).
    assert (Hq : 2 ^ 52 <= m / ulp m).
    { apply Z.div_le_lower_bound; lia. }
    destruct (Z.lt_ge_cases d (2 ^ 52 * ulp m)) as [Hd1 | Hd1]; [nia | ].
    rewrite (ulp_same_binade m d Hb) in Hmod by lia.
    apply Z.mod_divide in Hmod; [ | lia ]. destruct Hmod as [k ->].
    assert (k <= m / ulp m); [ | nia ].
    apply Z.div_le_lower_bound; lia.
Qed.

(** A double above an [m] off the grid is at least the grid point above. *)
Lemma double_above (d m : Z) :
  is_double d = true -> 0 <= m <= d -> m mod ulp m <> 0 ->
  (m / ulp m + 1) * ulp m <= d.
Proof.
  intros Hd [H0 Hle] Hr. apply is_double_spec in Hd as [_ Hmod].
  rewrite Z.abs_eq in Hmod by lia.
  destruct (Z.lt_ge_cases m (2 ^ 53)) as [Hs | Hb].
  - rewrite (ulp_small m Hs) in Hr. rewrite Z.mod_1_r in Hr. contradiction.
  - destruct (ulp_big m Hb) as (_ & _ & Hu & Hlo & Hhi).
    assert (Hq : m / ulp m < 2 ^ 53).
    { apply Z.div_lt_upper_bound; lia. }
    destruct (Z.lt_ge_cases d (2 ^ 53 * ulp m)) as [Hd1 | Hd1]; [ | nia ].
    rewrite (ulp_same_binade m d Hb) in Hmod by lia.
    apply Z.mod_divide in Hmod; [ | lia ]. destruct Hmod as [k Ek].
    assert (Hne : k * ulp m <> m).
    { intros E. apply Hr. pose proof (Z.mod_mul k (ulp m)) as Hm0.
      rewrite E in Hm0. apply Hm0. lia. }
    assert (m / ulp m < k); [ | nia ].
    apply Z.div_lt_upper_bound; [lia | ]. nia.
Qed.

Lemma round_double_nonneg (n : Z) :
  0 <= n -> round_double n = round_magnitude n.
Proof.
  intros H. unfold round_double. rewrite Z.abs_eq by exact H.
  destruct (Z.eq_dec n 0) as [-> | Hn]; [reflexivity | ].
  rewrite Z.sgn_pos by lia. lia.
Qed.

Lemma round_double_opp (n : Z) : round_double (- n) = - round_double n.
Proof. unfold round_double. rewrite Z.sgn_opp, Z.abs_opp. lia. Qed.

Lemma round_double_lower (a n : Z) :
  is_double a = true -> 0 <= a <= n -> a <= round_double n.
Proof.
  intros Ha Hn. rewrite round_double_nonneg by lia.
  pose proof (double_below a n Ha Hn) as Hb.
  pose proof (floor_grid n ltac:(lia)) as Hg.
  destruct (round_magnitude_cases n ltac:(lia)) as [[_ ->] | [_ [-> | ->]]];
    lia.
Qed.

Lemma round_double_upper (b n : Z) :
  is_double b = true -> 0 <= n <= b -> round_double n <= b.
Proof.
  intros Hb Hn. rewrite round_double_nonneg by lia.
  pose proof (floor_grid n ltac:(lia)) as Hg.
  destruct (round_magnitude_cases n ltac:(lia)) as [[_ ->] | [Hr [-> | ->]]].
  - lia.
  - lia.
  - now apply double_above.
Qed.

Lemma round_double_fix (x : Z) : is_double x = true -> round_double x = x.
Proof.
  intros H. apply is_double_spec in H as [_ Hmod].
  unfold round_double.
  destruct (round_magnitude_cases (Z.abs x) (Z.abs_nonneg x))
    as [[_ ->] | [Hr _]]; [ | contradiction ].
  destruct x; reflexivity.
Qed.

Lemma is_double_small (n : Z) : Z.abs n <= 2 ^ 53 -> is_double n = true.
Proof.
  intros H. apply is_double_spec. split.
  - eapply Z.le_lt_trans; [exact H | ]. apply Z.pow_lt_mono_r; lia.
  - destruct (Z.eq_dec (Z.abs n) (2 ^ 53)) as [E | E].
    + rewrite E. reflexivity.
    + rewrite ulp_small by lia. apply Z.mod_1_r.
Qed.

Lemma round_double_exact (n : Z) : Z.abs n <= 2 ^ 53 -> round_double n = n.
Proof. intros H. apply round_double_fix. now apply is_double_small. Qed.

(** The grid points of a binade, its end included, are doubles. *)
Lemma grid_mod (m k : Z) :
  2 ^ 53 <= m -> 2 ^ 52 <= k <= 2 ^ 53 ->
  (k * ulp m) mod ulp (k * ulp m) = 0.
Proof.
  intros Hm Hk. destruct (ulp_big m Hm) as (_ & _ & Hu & _).
  destruct (Z.eq_dec k (2 ^ 53)) as [-> | Hk'].
  - rewrite (ulp_next_binade m Hm).
    change (2 ^ 53) with (2 ^ 52 * 2).
    replace (2 ^ 52 * 2 * ulp m) with (2 ^ 52 * (2 * ulp m)) by lia.
    apply Z.mod_mul. lia.
  - rewrite (ulp_same_binade m (k * ulp m) Hm) by nia.
    apply Z.mod_mul. lia.
Qed.

Lemma round_double_is_double (b n : Z) :
  is_double b = true -> 0 <= n <= b -> is_double (round_double n) = true.
Proof.
  intros Hb Hn. pose proof (round_double_upper b n Hb Hn) as Hup.
  pose proof (round_double_lower 0 n eq_refl ltac:(lia)) as Hlo.
  apply is_double_spec in Hb as Hb'. destruct Hb' as [Hbb _].
  apply is_double_spec. rewrite Z.abs_eq by exact Hlo.
  split; [rewrite Z.abs_eq in Hbb by lia; lia | ].
  rewrite round_double_nonneg by lia.
  destruct (round_magnitude_cases n ltac:(lia)) as [[Hr ->] | [Hr HE]];
    [exact Hr | ].
  destruct (Z.lt_ge_cases n (2 ^ 53)) as [Hs | Hbig].
  - rewrite (ulp_small n Hs), Z.mod_1_r in Hr. contradiction.
  - destruct (ulp_big n Hbig) as (_ & _ & Hu & Hlo' & Hhi').
    assert (Hq1 : 2 ^ 52 <= n / ulp n) by (apply Z.div_le_lower_bound; lia).
    assert (Hq2 : n / ulp n < 2 ^ 53) by (apply Z.div_lt_upper_bound; lia).
    destruct HE as [-> | ->]; apply grid_mod; lia.
Qed.

Lemma round_magnitude_nonneg (m : Z) : 0 <= m -> 0 <= round_magnitude m.
Proof.
  intros H. pose proof (ulp_pos m) as Hu. pose proof (floor_grid m H) as Hg.
  assert (0 <= m / ulp m) by (apply Z.div_pos; lia).
  destruct (round_magnitude_cases m H) as [[_ ->] | [_ [-> | ->]]]; nia.
Qed.

Lemma round_double_pos_inv (n : Z) : 0 < round_double n -> 0 < n.
Proof.
  unfold round_double. intros H.
  pose proof (round_magnitude_nonneg (Z.abs n) (Z.abs_nonneg n)) as Hm.
  destruct (Z.lt_trichotomy n 0) as [Hn | [Hn | Hn]]; [ | | exact Hn ].
  - rewrite (Z.sgn_neg n Hn) in H. lia.
  - subst n. rewrite Z.sgn_null in H; lia.
Qed.

Lemma shortest_from_round (j : nat) (p x : Z) :
  is_double x = true -> 0 < x ->
  round_double (shortest_from j p x) = x /\ 0 < shortest_from j p x.
Proof.
  intros Hx Hpos. revert p. induction j as [ | j IH ]; intros p.
  - cbn. split; [now apply round_double_fix | exact Hpos].
  - cbn [shortest_from].
    destruct ((0 <? x / p * p) && (round_double (x / p * p) =? x)) eqn:Elo;
      destruct (round_double (x / p * p + p) =? x) eqn:Ehi; cbn [andb].
    + apply andb_true_iff in Elo as [Hl0 Hl]. apply Z.ltb_lt in Hl0.
      apply Z.eqb_eq in Hl, Ehi.
      assert (0 < x / p * p + p) by (apply round_double_pos_inv; lia).
      destruct (x - x / p * p <? x / p * p + p - x); [now split | ].
      destruct (x / p * p + p - x <? x - x / p * p); [now split | ].
      destruct (Z.even (x / p)); now split.
    + apply andb_true_iff in Elo as [Hl0 Hl]. apply Z.ltb_lt in Hl0.
      apply Z.eqb_eq in Hl. now split.
    + apply Z.eqb_eq in Ehi. split; [exact Ehi | ].
      apply round_double_pos_inv. lia.
    + apply IH.
Qed.

Lemma round_double_safe_inv (c x : Z) :
  Z.abs x < 2 ^ 53 -> 0 < c -> round_double c = x -> c = x.
Proof.
  intros Hx Hc E. destruct (Z.le_gt_cases c (2 ^ 53)) as [H | H].
  - rewrite round_double_exact in E by lia. exact E.
  - assert (2 ^ 53 <= round_double c).
    { apply round_double_lower; [reflexivity | ].
      change (2 ^ 53) with 9007199254740992 in *. lia. }
    lia.
Qed.

Lemma shortest_from_safe (j : nat) (p x : Z) :
  Z.abs x < 2 ^ 53 -> 0 < x -> shortest_from j p x = x.
Proof.
  intros Hx Hpos. revert p. induction j as [ | j IH ]; intros p;
    [reflexivity | ].
  cbn [shortest_from].
  destruct ((0 <? x / p * p) && (round_double (x / p * p) =? x)) eqn:Elo;
    destruct (round_double (x / p * p + p) =? x) eqn:Ehi; cbn [andb].
  - apply andb_true_iff in Elo as [Hl0 Hl]. apply Z.ltb_lt in Hl0.
    apply Z.eqb_eq in Hl, Ehi.
    apply round_double_safe_inv in Hl; [ | lia | lia ].
    apply round_double_safe_inv in Ehi;
      [ | lia | apply round_double_pos_inv; lia ].
    destruct (x - x / p * p <? x / p * p + p - x); [exact Hl | ].
    destruct (x / p * p + p - x <? x - x / p * p); [exact Ehi | ].
    destruct (Z.even (x / p)); assumption.
  - apply andb_true_iff in Elo as [Hl0 Hl]. apply Z.ltb_lt in Hl0.
    apply Z.eqb_eq in Hl. apply round_double_safe_inv in Hl; lia.
  - apply Z.eqb_eq in Ehi.
    apply round_double_safe_inv in Ehi;
      [ exact Ehi | lia | apply round_double_pos_inv; lia ].
  - apply IH.
Qed.

Lemma numeral_inj (n m : Z) : numeral n = numeral m -> n = m.
Proof.
  unfold numeral. intros H. apply DecimalZ.to_int_inj.
  assert (Hnn : forall z, Z.to_int z <> Decimal.Pos Decimal.Nil /\
                          Z.to_int z <> Decimal.Neg Decimal.Nil).
  { intros [ | q | q ]; cbn; split; try discriminate;
      intros [= E]; now apply (DecimalPos.Unsigned.to_uint_nonnil q). }
  destruct (Hnn n) as [Hn1 Hn2]. destruct (Hnn m) as [Hm1 Hm2].
  pose proof (NilZero.isi _ Hn1 Hn2) as En.
  pose proof (NilZero.isi _ Hm1 Hm2) as Em.
  rewrite H in En. rewrite En in Em. now injection Em.
Qed.

Lemma uint_digits (d : Decimal.uint) :
  all_digits (NilEmpty.string_of_uint d) = true.
Proof. induction d; cbn; try reflexivity; exact IHd. Qed.

Lemma numeral_digits (y : Z) : 0 <= y -> all_digits (numeral y) = true.
Proof.
  intros H. unfold numeral. destruct y as [ | q | q ]; [reflexivity | | lia].
  cbn. destruct (Pos.to_uint q); try reflexivity; apply uint_digits.
Qed.

Lemma numeral_neg (q : positive) :
  numeral (Z.neg q) = String "-" (numeral (Z.pos q)).
Proof. reflexivity. Qed.

Lemma uint_urlencode (d : Decimal.uint) :
  urlencode (NilEmpty.string_of_uint d) = NilEmpty.string_of_uint d.
Proof. induction d; cbn; try reflexivity; now rewrite IHd. Qed.

Lemma numeral_urlencode (n : Z) : urlencode (numeral n) = numeral n.
Proof.
  unfold numeral. destruct n as [ | q | q ]; [reflexivity | | ]; cbn;
    destruct (Pos.to_uint q); cbn; try reflexivity;
    now rewrite ?uint_urlencode.
Qed.

Lemma Number_toString_safe (n : Z) :
  Z.abs n < 2 ^ 53 -> Number_toString n = numeral n.
Proof.
  intros H. destruct n as [ | q | q ]; [reflexivity | | ].
  - unfold Number_toString, shortest. rewrite shortest_from_safe by lia.
    unfold format_positive.
    destruct (Z.ltb_spec (Z.pos q) (10 ^ 21)); [reflexivity | ].
    change (2 ^ 53) with 9007199254740992 in H.
    change (10 ^ 21) with 1000000000000000000000 in *. lia.
  - unfold Number_toString, shortest. change (- Z.neg q) with (Z.pos q).
    rewrite shortest_from_safe by lia.
    unfold format_positive.
    destruct (Z.ltb_spec (Z.pos q) (10 ^ 21)); [reflexivity | ].
    change (2 ^ 53) with 9007199254740992 in H.
    change (10 ^ 21) with 1000000000000000000000 in *. lia.
Qed.

Lemma has_char_app (c : ascii) (a b : string) :
  has_char c (a ++ b) = has_char c a || has_char c b.
Proof.
  induction a as [ | x a IH ]; [reflexivity | ].
  cbn. rewrite IH. apply orb_assoc.
Qed.

Lemma all_digits_has_char (c : ascii) (s : string) :
  is_digit c = false -> all_digits s = true -> has_char c s = false.
Proof.
  intros Hc. induction s as [ | a s IH ]; [reflexivity | ].
  cbn. intros H. apply andb_true_iff in H as [Ha Hs].
  rewrite (IH Hs), orb_false_r.
  destruct (Ascii.eqb_spec a c) as [-> | ]; [congruence | reflexivity].
Qed.

Lemma split_at_char (c : ascii) (a1 a2 b1 b2 : string) :
  has_char c a1 = false -> has_char c a2 = false ->
  (a1 ++ String c b1)%string = (a2 ++ String c b2)%string ->
  a1 = a2 /\ b1 = b2.
Proof.
  revert a2. induction a1 as [ | x a1 IH ]; intros [ | y a2 ] H1 H2 E; cbn in *.
  - injection E as ->. now split.
  - injection E as -> _. rewrite Ascii.eqb_refl in H2. discriminate.
  - injection E as -> _. rewrite Ascii.eqb_refl in H1. discriminate.
  - injection E as -> E.
    apply orb_false_iff in H1 as [_ H1]. apply orb_false_iff in H2 as [_ H2].
    destruct (IH a2 H1 H2 E) as [-> ->]. now split.
Qed.

Lemma strip_zeros_spec (s : string) :
  s = (strip_zeros s
       ++ zeros (String.length s - String.length (strip_zeros s)))%string.
Proof.
  induction s as [ | c r IH ]; [reflexivity | ].
  cbn [strip_zeros]. destruct (strip_zeros r) as [ | c' r' ] eqn:E.
  - cbn in IH. rewrite Nat.sub_0_r in IH.
    destruct (Ascii.eqb_spec c "0") as [-> | _].
    + cbn. now rewrite <- IH.
    + cbn. rewrite Nat.sub_0_r. now rewrite <- IH.
  - cbn [String.length]. cbn [append].
    rewrite Nat.sub_succ. cbn [String.length append] in IH.
    now rewrite <- IH.
Qed.

Lemma strip_zeros_digits (s : string) :
  all_digits s = true -> all_digits (strip_zeros s) = true.
Proof.
  induction s as [ | c r IH ]; [reflexivity | ].
  cbn. intros H. apply andb_true_iff in H as [Hc Hr]. specialize (IH Hr).
  destruct (strip_zeros r).
  - destruct (Ascii.eqb c "0"); [reflexivity | ]. cbn. now rewrite Hc.
  - cbn [all_digits] in *. now rewrite Hc, IH.
Qed.

Lemma mantissa_inj (s1 s2 : string) : mantissa s1 = mantissa s2 -> s1 = s2.
Proof.
  destruct s1 as [ | a1 [ | b1 r1 ] ], s2 as [ | a2 [ | b2 r2 ] ]; cbn;
    intros E; try discriminate E; try reflexivity; congruence.
Qed.

Lemma mantissa_no_char (c : ascii) (s : string) :
  is_digit c = false -> Ascii.eqb "." c = false ->
  all_digits s = true -> has_char c (mantissa s) = false.
Proof.
  intros Hc Hdot Hs. destruct s as [ | a [ | b r ] ].
  - reflexivity.
  - now apply all_digits_has_char.
  - pose proof (all_digits_has_char c _ Hc Hs) as H.
    cbn [mantissa has_char] in H |- *.
    apply orb_false_iff in H as [Ha H]. now rewrite Ha, Hdot, H.
Qed.

Lemma exponential_inj (y1 y2 : Z) :
  0 <= y1 -> 0 <= y2 -> exponential y1 = exponential y2 -> y1 = y2.
Proof.
  intros H1 H2 E. unfold exponential in E.
  pose proof (numeral_digits y1 H1) as D1.
  pose proof (numeral_digits y2 H2) as D2.
  apply split_at_char in E;
    [ | apply mantissa_no_char; [reflexivity | reflexivity | ];
        now apply strip_zeros_digits .. ].
  destruct E as [Em Ee]. apply mantissa_inj in Em.
  injection Ee as Ee. apply numeral_inj in Ee.
  apply numeral_inj.
  rewrite (strip_zeros_spec (numeral y1)), (strip_zeros_spec (numeral y2)).
  rewrite Em. do 2 f_equal. lia.
Qed.

Lemma format_positive_inj (y1 y2 : Z) :
  0 <= y1 -> 0 <= y2 -> format_positive y1 = format_positive y2 -> y1 = y2.
Proof.
  intros H1 H2. unfold format_positive.
  pose proof (numeral_digits y1 H1) as D1.
  pose proof (numeral_digits y2 H2) as D2.
  assert (He : forall y, has_char "e" (exponential y) = true).
  { intros y. unfold exponential. rewrite has_char_app.
    cbn [append has_char]. rewrite Ascii.eqb_refl. apply orb_true_r. }
  destruct (y1 <? 10 ^ 21), (y2 <? 10 ^ 21); intros E.
  - now apply numeral_inj.
  - apply (f_equal (has_char "e")) in E.
    rewrite (He y2), (all_digits_has_char "e" _ eq_refl D1) in E.
    discriminate.
  - apply (f_equal (has_char "e")) in E.
    rewrite (He y1), (all_digits_has_char "e" _ eq_refl D2) in E.
    discriminate.
  - now apply exponential_inj.
Qed.

Lemma numeral_nonempty (y : Z) : (1 <= String.length (numeral y))%nat.
Proof.
  unfold numeral. destruct y as [ | q | q ]; cbn; [lia | | lia].
  destruct (Pos.to_uint q); cbn; lia.
Qed.

Lemma format_positive_no_minus (y : Z) :
  0 <= y -> has_char "-" (format_positive y) = false.
Proof.
  intros H. pose proof (numeral_digits y H) as D. unfold format_positive.
  destruct (y <? 10 ^ 21).
  - now apply all_digits_has_char.
  - unfold exponential. rewrite has_char_app.
    rewrite mantissa_no_char;
      [ | reflexivity | reflexivity | now apply strip_zeros_digits ].
    cbn. apply all_digits_has_char; [reflexivity | ].
    apply numeral_digits. pose proof (numeral_nonempty y). lia.
Qed.

(** The text of a double is the text of a number that rounds to it. *)
Lemma Number_toString_magnitude (x : Z) :
  is_double x = true -> 0 <= x ->
  exists y, 0 <= y /\ round_double y = x /\
            Number_toString x = format_positive y.
Proof.
  intros Hd H. destruct x as [ | q | q ]; [ | | lia ].
  - exists 0. split; [lia | split; reflexivity].
  - exists (shortest (Z.pos q)).
    destruct (shortest_from_round
                (Z.to_nat (Z.log2 (Z.pos q) / 3 + 1))
                (10 ^ (Z.log2 (Z.pos q) / 3 + 1)) (Z.pos q) Hd ltac:(lia))
      as [Hr Hp].
    unfold shortest. split; [lia | split; [exact Hr | reflexivity]].
Qed.

Lemma is_double_opp (x : Z) : is_double (- x) = is_double x.
Proof. unfold is_double. now rewrite Z.abs_opp. Qed.

Lemma Number_toString_neg (q : positive) :
  Number_toString (Z.neg q) = String "-" (Number_toString (Z.pos q)).
Proof. reflexivity. Qed.

Lemma Number_toString_inj (x1 x2 : Z) :
  is_double x1 = true -> is_double x2 = true ->
  Number_toString x1 = Number_toString x2 -> x1 = x2.
Proof.
  assert (Hnn : forall a b, is_double a = true -> is_double b = true ->
                  0 <= a -> 0 <= b ->
                  Number_toString a = Number_toString b -> a = b).
  { intros a b Ha Hb H0a H0b E.
    destruct (Number_toString_magnitude a Ha H0a) as (ya & Hya & Ra & Ea).
    destruct (Number_toString_magnitude b Hb H0b) as (yb & Hyb & Rb & Eb).
    rewrite Ea, Eb in E. apply format_positive_inj in E; [ | lia | lia ].
    congruence. }
  assert (Hmix : forall a q, is_double a = true -> 0 <= a ->
                   Number_toString a <> Number_toString (Z.neg q)).
  { intros a q Ha H0a E.
    destruct (Number_toString_magnitude a Ha H0a) as (ya & Hya & _ & Ea).
    rewrite Ea, Number_toString_neg in E.
    apply (f_equal (has_char "-")) in E.
    rewrite format_positive_no_minus in E by exact Hya. discriminate. }
  intros H1 H2 E.
  destruct x1 as [ | q1 | q1 ], x2 as [ | q2 | q2 ];
    try (apply Hnn; [assumption | assumption | lia | lia | assumption]);
    try (exfalso; eapply Hmix; [ | | exact E ]; [assumption | lia]);
    try (exfalso; symmetry in E; eapply Hmix; [ | | exact E ];
         [assumption | lia]).
  rewrite !Number_toString_neg in E. injection E as E.
  change (Number_toString (Z.pos q1) = Number_toString (Z.pos q2)) in E.
  apply Hnn in E; [ | | | lia | lia ].
  - congruence.
  - rewrite <- (is_double_opp (Z.pos q1)). exact H1.
  - rewrite <- (is_double_opp (Z.pos q2)). exact H2.
Qed.

Lemma is_safe_lt (n : Z) : is_safe n <-> Z.abs n < 2 ^ 53.
Proof.
  unfold is_safe, MAX_SAFE_INTEGER.
  change (2 ^ 53) with 9007199254740992. lia.
Qed.

Lemma is_safe_double (n : Z) : is_safe n -> is_double n = true.
Proof. intros H. apply is_double_small. apply is_safe_lt in H. lia. Qed.

(** Within the safe integers, one more and one less are exact. *)
Lemma round_double_succ_safe (n : Z) :
  is_safe n -> round_double (n + 1) = n + 1 /\ round_double (n - 1) = n - 1.
Proof.
  intros H. apply is_safe_lt in H.
  split; apply round_double_exact; lia.
Qed.

(** The numeral printed for a safe integer reads back as that integer. *)
Lemma Number_toString_reads_back (n : Z) :
  is_safe n ->
  option_map Z.of_int (NilZero.int_of_string (Number_toString n)) = Some n.
Proof.
  intros H. apply is_safe_lt in H. rewrite (Number_toString_safe n H).
  unfold numeral. rewrite NilZero.isi.
  - cbn. now rewrite DecimalZ.of_to.
  - destruct n as [ | q | q ]; cbn; try discriminate.
    intros [= E]. now apply (DecimalPos.Unsigned.to_uint_nonnil q).
  - destruct n as [ | q | q ]; cbn; try discriminate.
    intros [= E]. now apply (DecimalPos.Unsigned.to_uint_nonnil q).
Qed.

(** Values at and above [2 ^ 53], as a JavaScript engine gives them. *)
Example round_double_values :
  round_double (2 ^ 53 + 1) = 2 ^ 53 /\
  round_double (2 ^ 53 + 3) = 2 ^ 53 + 4 /\
  round_double (2 ^ 53 - 1) = 2 ^ 53 - 1 /\
  round_double (- (2 ^ 53) - 1) = - (2 ^ 53) /\
  round_double (2 ^ 54 + 1) = 2 ^ 54 /\
  is_double (2 ^ 53 + 1) = false /\
  is_double (2 ^ 53 + 2) = true.
Proof. vm_compute. repeat split; reflexivity. Qed.

Example Number_toString_values :
  Number_toString 0 = "0" /\
  Number_toString (-5) = "-5" /\
  Number_toString 100 = "100" /\
  Number_toString (2 ^ 53) = "9007199254740992" /\
  Number_toString (2 ^ 64) = "18446744073709552000" /\
  Number_toString 123456789012345680000 = "123456789012345680000" /\
  Number_toString (10 ^ 21) = "1e+21" /\
  Number_toString (2 ^ 70) = "1.1805916207174113e+21" /\
  Number_toString (- (10 ^ 21)) = "-1e+21".
Proof. vm_compute. repeat split; reflexivity. Qed.

Example urlencode_values :
  urlencode "1e+21" = "1e%2B21" /\
  urlencode "-12" = "-12" /\
  urlencode "a b~*-._/" = "a+b%7E*-._%2F".
Proof. vm_compute. repeat split; reflexivity. Qed.

(** ** fetchTransfers: success *)

Lemma or_default_falsy {A : Type} (v : js_field A) (d : A) :
  truthy v = false -> or_default v d = d.
Proof. destruct v; [reflexivity .. | discriminate]. Qed.

(** C1, as stated, fails: a response of status 200 whose body is not JSON
    makes [response.json()] reject, and one whose body is [null] makes the
    read of [data.transfers] throw.  Both land in the catch block: the list
    and the pagination stay what they were (here a non-empty list where the
    claim promises the empty one, the body having no [transfers] field), and
    an error message is set. *)
Lemma C1_counterexample_2xx_without_object :
  ok unparsable_200 = true /\
  (let s1 := fetch_run (respond unparsable_200) sample_account sample_state in
   transfers s1 = [sample_transfer] /\ transfers s1 <> [] /\
   pagination s1 = pagination sample_state /\
   pagination s1 <> default_pagination /\
   fetchError s1 = "Unexpected end of JSON input") /\
  ok null_200 = true /\
  (let s1 := fetch_run (respond null_200) sample_account sample_state in
   transfers s1 = [sample_transfer] /\ transfers s1 <> [] /\
   pagination s1 = pagination sample_state /\
   fetchError s1 = "Cannot read properties of null (reading 'transfers')").
Proof.
  repeat split; try reflexivity; cbn; discriminate.
Qed.

(** C1, amended: when the response is 2xx and its body parses to a JSON value
    other than [null] (so that both property reads return), the continuation
    of [fetchTransfers] replaces the transfer list by the body's [transfers]
    member, or by the empty list when that member is absent or falsy, and the
    pagination by the [pagination] member, or by
    [{page:1, limit:10, total:0, pages:1}]; the error string is not touched,
    nothing is logged, and the other cells keep the values they had when the
    promise settled. *)
Theorem C1_success_replaces_transfers_and_pagination
    (fetch : fetch_api) (account : Account) (s s' : AppState)
    (r : Response) (data : json_data)
    (t : js_field (list Transfer)) (p : js_field Pagination) :
  fetch (URL_toString (request_url account s)) = Normal r ->
  ok r = true ->
  json r = Normal data ->
  data_transfers data = ret t ->
  data_pagination data = ret p ->
  let k := after_await (fst (fetchTransfers fetch account s)) in
  let s1 := fetch_finish fetch account s s' in
  transfers s1 = or_default t [] /\
  pagination s1 = or_default p default_pagination /\
  (if truthy t then True else transfers s1 = []) /\
  (if truthy p then True else pagination s1 = default_pagination) /\
  fetchError s1 = fetchError s' /\
  List.filter is_external k = [] /\
  filter s1 = filter s' /\
  selectedTransfer s1 = selectedTransfer s'.
Proof.
  intros Hf Hok Hj Ht Hp k s1. subst k s1.
  destruct data as [ | t0 p0 | ]; [discriminate Ht | | ].
  - injection Ht as ->. injection Hp as ->.
    rewrite (fetch_finish_object _ _ _ s' _ _ _ Hf Hok Hj).
    unfold fetch_finish. rewrite (trace_object _ _ _ _ _ _ Hf Hok Hj). cbn.
    repeat split; try reflexivity.
    + destruct (truthy t) eqn:E; [exact I | now apply or_default_falsy].
    + destruct (truthy p) eqn:E; [exact I | now apply or_default_falsy].
  - injection Ht as <-. injection Hp as <-.
    rewrite (fetch_finish_other _ _ _ s' _ Hf Hok Hj).
    unfold fetch_finish. rewrite (trace_other _ _ _ _ Hf Hok Hj). cbn.
    repeat split; reflexivity.
Qed.

Lemma C1_success_witness :
  let s' := fetch_start (respond partial_200) sample_account sample_state in
  let s1 := fetch_finish (respond partial_200) sample_account sample_state s' in
  transfers s1 = [sample_transfer; sample_transfer] /\
  pagination s1 = default_pagination /\
  fetchError s1 = "".
Proof.
  cbn zeta.
  pose proof (C1_success_replaces_transfers_and_pagination
                (respond partial_200) sample_account sample_state
                (fetch_start (respond partial_200) sample_account sample_state)
                partial_200
                (DataObject (Val [sample_transfer; sample_transfer]) Undefined)
                (Val [sample_transfer; sample_transfer]) Undefined
                eq_refl eq_refl eq_refl eq_refl eq_refl) as H.
  cbn zeta in H.
  destruct H as (Ht & Hp & _ & _ & He & _).
  split; [exact Ht | split; [exact Hp | rewrite He; reflexivity]].
Defined.

(** ** fetchTransfers: failure *)

(** C2, as stated, fails: the message shown is the one carried by the value
    the promise rejected with, and the handler adds nothing to it.  With an
    [Error] whose message is empty, the error string is empty and the view
    has no error paragraph. *)
Lemma C2_counterexample_empty_message :
  let fetch := reject (JsError "") in
  let s1 := fetch_run fetch sample_account scenario_state in
  fetch_fails fetch sample_account scenario_state (JsError "") /\
  fetchError s1 = "" /\
  error_paragraph (App sample_account s1) = None.
Proof.
  cbn zeta. split; [ | split; reflexivity ].
  apply fails_transport. reflexivity.
Qed.

(** C2, amended: when [fetch] rejects or the response is not 2xx, the
    continuation leaves the transfer list and the pagination as they were
    when the promise settled and sets the error string to the message of the
    thrown [Error] (to "Unknown error" when the rejection is not an [Error]);
    the view shows it whenever it is not empty.  For a response that is not
    2xx the text is exactly "Network response was not ok", and it is shown. *)
Theorem C2_failure_keeps_data_and_sets_error
    (fetch : fetch_api) (account : Account) (s s' : AppState) (err : thrown) :
  fetch_fails fetch account s err ->
  let s1 := fetch_finish fetch account s s' in
  transfers s1 = transfers s' /\
  pagination s1 = pagination s' /\
  fetchError s1 = error_text err /\
  error_paragraph (App account s1)
  = (if String.eqb (error_text err) "" then None else Some (error_text err)) /\
  match fetch (URL_toString (request_url account s)) with
  | Normal _ =>
      fetchError s1 = "Network response was not ok" /\
      error_paragraph (App account s1) = Some "Network response was not ok"
  | Throw e =>
      fetchError s1
      = match e with JsError m => m | NonError => "Unknown error" end
  end.
Proof.
  intros Hfail s1. subst s1. destruct Hfail as [e Hf | r Hf Hok].
  - rewrite (fetch_finish_rejected _ _ _ s' _ Hf), Hf. cbn.
    repeat split; reflexivity.
  - rewrite (fetch_finish_not_ok _ _ _ s' _ Hf Hok), Hf. cbn.
    repeat split; reflexivity.
Qed.

Lemma C2_failure_witness :
  let s' := fetch_start (respond error_500) sample_account scenario_state in
  let s1 := fetch_finish (respond error_500) sample_account scenario_state s' in
  transfers s1 = [sample_transfer] /\
  pagination s1 = pagination scenario_state /\
  fetchError s1 = "Network response was not ok" /\
  error_paragraph (App sample_account s1) = Some "Network response was not ok".
Proof.
  cbn zeta.
  assert (Hfail : fetch_fails (respond error_500) sample_account scenario_state
                    (JsError "Network response was not ok")).
  { apply fails_status with (r := error_500); reflexivity. }
  destruct (C2_failure_keeps_data_and_sets_error
              (respond error_500) sample_account scenario_state
              (fetch_start (respond error_500) sample_account scenario_state)
              _ Hfail) as (Ht & Hp & He & Hv & _).
  repeat split; assumption.
Defined.

(** ** fetchTransfers: the loading flag *)

(** C3: [fetchTransfers] sets the loading flag before it suspends, and the
    last thing it does, however the request went (rejection, status outside
    2xx, body that is not JSON, body read without or with a throw), is to
    clear it: the flag is false after the continuation has run, on whatever
    state it runs, and the handler itself never rejects. *)
Theorem C3_loading_flag_set_then_cleared
    (fetch : fetch_api) (account : Account) (s s' : AppState) :
  isLoading (fetch_start fetch account s) = true /\
  loading_text (App account (fetch_start fetch account s)) = true /\
  last (fst (fetchTransfers fetch account s)) Await = SetIsLoading false /\
  isLoading (fetch_finish fetch account s s') = false /\
  loading_text (App account (fetch_finish fetch account s s')) = false /\
  snd (fetchTransfers fetch account s) = Normal tt.
Proof.
  rewrite fetch_start_eq. cbn [isLoading App loading_text].
  split; [reflexivity | split; [reflexivity | ]].
  split; [ | split; [ | split; [ | apply fetchTransfers_fulfils ] ] ].
  - fetch_cases fetch account s.
    + now rewrite (trace_null _ _ _ _ Hfetch Hok Hjson).
    + now rewrite (trace_object _ _ _ _ _ _ Hfetch Hok Hjson).
    + now rewrite (trace_other _ _ _ _ Hfetch Hok Hjson).
    + now rewrite (trace_json_rejected _ _ _ _ _ Hfetch Hok Hjson).
    + now rewrite (trace_not_ok _ _ _ _ Hfetch Hok).
    + now rewrite (trace_rejected _ _ _ _ Hfetch).
  - fetch_cases fetch account s.
    + now rewrite (fetch_finish_null _ _ _ s' _ Hfetch Hok Hjson).
    + now rewrite (fetch_finish_object _ _ _ s' _ _ _ Hfetch Hok Hjson).
    + now rewrite (fetch_finish_other _ _ _ s' _ Hfetch Hok Hjson).
    + now rewrite (fetch_finish_json_rejected _ _ _ s' _ _ Hfetch Hok Hjson).
    + now rewrite (fetch_finish_not_ok _ _ _ s' _ Hfetch Hok).
    + now rewrite (fetch_finish_rejected _ _ _ s' _ Hfetch).
  - fetch_cases fetch account s.
    + now rewrite (fetch_finish_null _ _ _ s' _ Hfetch Hok Hjson).
    + now rewrite (fetch_finish_object _ _ _ s' _ _ _ Hfetch Hok Hjson).
    + now rewrite (fetch_finish_other _ _ _ s' _ Hfetch Hok Hjson).
    + now rewrite (fetch_finish_json_rejected _ _ _ s' _ _ Hfetch Hok Hjson).
    + now rewrite (fetch_finish_not_ok _ _ _ s' _ Hfetch Hok).
    + now rewrite (fetch_finish_rejected _ _ _ s' _ Hfetch).
Qed.

(** ** fetchTransfers: the request *)

(** The one request of a call is the one made before the first [await]. *)
Lemma fetchTransfers_requests (fetch : fetch_api) (account : Account)
    (s : AppState) :
  requests (fst (fetchTransfers fetch account s))
  = [URL_toString (request_url account s)].
Proof.
  fetch_cases fetch account s.
  - now rewrite (trace_null _ _ _ _ Hfetch Hok Hjson).
  - now rewrite (trace_object _ _ _ _ _ _ Hfetch Hok Hjson).
  - now rewrite (trace_other _ _ _ _ Hfetch Hok Hjson).
  - now rewrite (trace_json_rejected _ _ _ _ _ Hfetch Hok Hjson).
  - now rewrite (trace_not_ok _ _ _ _ Hfetch Hok).
  - now rewrite (trace_rejected _ _ _ _ Hfetch).
Qed.

(** C4: the URL that [fetchTransfers] requests has the query parameters
    [page] and [limit] of the pagination state the handler closed over, as
    [toString] prints them, and a parameter [type] equal to the filter
    exactly when the filter is [in] or [out]; with the filter [all] there is
    no [type].  These three are all its parameters, and that URL is the
    single request of the call.  The printed text carries the number: for a
    safe integer it is the decimal numeral, which reads back as the page
    (the limit), and among all numbers only the state's page (limit) prints
    as the parameter does. *)
Theorem C4_request_url_parameters
    (fetch : fetch_api) (account : Account) (s : AppState) :
  let url := request_url account s in
  searchParams_get url "page" = Some (Number_toString (page (pagination s))) /\
  searchParams_get url "limit"
  = Some (Number_toString (limit (pagination s))) /\
  searchParams_get url "type"
  = match filter s with
    | F_all => None
    | F_in => Some "in"
    | F_out => Some "out"
    end /\
  searchParams url
  = [("page", Number_toString (page (pagination s)));
     ("limit", Number_toString (limit (pagination s)))]
    ++ match filter s with
       | F_all => []
       | f => [("type", Filter_string f)]
       end /\
  href_base url
  = ("http://localhost:3001/api/transfers/"
     ++ template_address (address account))%string /\
  requests (fst (fetchTransfers fetch account s)) = [URL_toString url] /\
  (forall v : string,
     searchParams_get url "page" = Some v ->
     (is_safe (page (pagination s)) ->
      v = NilZero.string_of_int (Z.to_int (page (pagination s))) /\
      option_map Z.of_int (NilZero.int_of_string v)
      = Some (page (pagination s))) /\
     (forall n : Z,
        is_double (page (pagination s)) = true -> is_double n = true ->
        Number_toString n = v -> n = page (pagination s))) /\
  (forall v : string,
     searchParams_get url "limit" = Some v ->
     (is_safe (limit (pagination s)) ->
      v = NilZero.string_of_int (Z.to_int (limit (pagination s))) /\
      option_map Z.of_int (NilZero.int_of_string v)
      = Some (limit (pagination s))) /\
     (forall n : Z,
        is_double (limit (pagination s)) = true -> is_double n = true ->
        Number_toString n = v -> n = limit (pagination s))).
Proof.
  cbn zeta. rewrite fetchTransfers_requests.
  assert (Hp : searchParams_get (request_url account s) "page"
               = Some (Number_toString (page (pagination s)))).
  { unfold request_url. destruct (filter s); reflexivity. }
  assert (Hl : searchParams_get (request_url account s) "limit"
               = Some (Number_toString (limit (pagination s)))).
  { unfold request_url. destruct (filter s); reflexivity. }
  assert (Hpin : forall x v,
            Some (Number_toString x) = Some v ->
            (is_safe x ->
             v = NilZero.string_of_int (Z.to_int x) /\
             option_map Z.of_int (NilZero.int_of_string v) = Some x) /\
            (forall n : Z, is_double x = true -> is_double n = true ->
                           Number_toString n = v -> n = x)).
  { intros x v [= <-]. split.
    - intros Hs. split.
      + apply Number_toString_safe. now apply is_safe_lt.
      + now apply Number_toString_reads_back.
    - intros n Hx Hn E. now apply Number_toString_inj. }
  split; [exact Hp | ]. split; [exact Hl | ].
  split; [unfold request_url; destruct (filter s); reflexivity | ].
  split; [unfold request_url; destruct (filter s); reflexivity | ].
  split; [unfold request_url; destruct (filter s); reflexivity | ].
  split; [reflexivity | ].
  split; intros v Hv.
  - rewrite Hp in Hv. now apply Hpin.
  - rewrite Hl in Hv. now apply Hpin.
Qed.

(** The request of page 2 with limit 10. *)
Lemma C4_request_witness :
  searchParams_get (request_url sample_account sample_state) "page"
  = Some "2" /\
  option_map Z.of_int (NilZero.int_of_string "2") = Some 2 /\
  searchParams_get (request_url sample_account sample_state) "limit"
  = Some "10".
Proof.
  destruct (C4_request_url_parameters (respond scenario_200) sample_account
              sample_state) as (_ & _ & _ & _ & _ & _ & Hp & Hl).
  assert (Hs2 : is_safe 2) by (unfold is_safe, MAX_SAFE_INTEGER; cbn; lia).
  assert (Hs10 : is_safe 10) by (unfold is_safe, MAX_SAFE_INTEGER; cbn; lia).
  destruct (Hp "2" eq_refl) as [Hp1 _]. destruct (Hp1 Hs2) as [_ Hp2].
  destruct (Hl "10" eq_refl) as [Hl1 _]. destruct (Hl1 Hs10) as [_ _].
  split; [reflexivity | split; [exact Hp2 | reflexivity]].
Defined.

(** The request of the sample state, as text. *)
Example request_url_sample :
  URL_toString (request_url sample_account sample_state)
  = "http://localhost:3001/api/transfers/0xf39Fd6e51aad88F6F4ce6aB8827279cffFb92266?page=2&limit=10&type=in".
Proof. reflexivity. Qed.

Example request_url_initial :
  URL_toString (request_url (mkAccount disconnected None None) initial_state)
  = "http://localhost:3001/api/transfers/undefined?page=1&limit=10".
Proof. reflexivity. Qed.

(** ** The pagination buttons *)

(** C5: when the table and its pagination controls are rendered, Previous is
    disabled exactly when [page <= 1] and Next exactly when [page >= pages]. *)
Theorem C5_pagination_buttons_disabled
    (account : Account) (s : AppState) (rows : list Row)
    (pc : PaginationControls) :
  history (App account s) = Some (rows, pc) ->
  (previous_disabled pc = true <-> page (pagination s) <= 1) /\
  (next_disabled pc = true <-> page (pagination s) >= pages (pagination s)).
Proof.
  unfold App. cbn [history].
  destruct (Z.of_nat (length (transfers s)) >? 0); [ | discriminate ].
  intros H. injection H as _ <-. unfold render_pagination. cbn.
  split.
  - apply Z.leb_le.
  - rewrite Z.geb_leb. rewrite Z.leb_le. lia.
Qed.

(** The scenario of the specification: one row, page 1 of 1, both buttons
    disabled. *)
Lemma C5_pagination_witness :
  history (App sample_account scenario_state)
  = Some ([render_row sample_transfer], mkPaginationControls true 1 1 true) /\
  (true = true <-> 1 <= 1) /\ (true = true <-> 1 >= 1).
Proof.
  split; [reflexivity | ].
  exact (C5_pagination_buttons_disabled sample_account scenario_state
           [render_row sample_transfer] (mkPaginationControls true 1 1 true)
           eq_refl).
Defined.

(** ** The detail overlay *)

(** C6: the date cell of row [i] is built from [timestamp] as it is, the
    overlay opened by a click on that cell shows the row's [from], [to] and
    [value] and a date built from [timestamp * 1000], and a click on Close
    sets the selected record to [null], which removes the overlay. *)
Theorem C6_row_date_and_detail_overlay
    (w : World) (i : nat) (transfer : Transfer) :
  nth_error (transfers (ui w)) i = Some transfer ->
  let opened := step (ClickDate i) w in
  let closed := step ClickClose opened in
  (exists rows pc,
     history (view w) = Some (rows, pc) /\
     nth_error rows i = Some (render_row transfer) /\
     cell_date (render_row transfer) = new_Date (timestamp transfer)) /\
  selectedTransfer (ui opened) = Some transfer /\
  details (view opened)
  = Some {| details_from := from transfer;
            details_to := to transfer;
            details_amount := value transfer;
            details_date := new_Date (timestamp transfer * 1000) |} /\
  selectedTransfer (ui closed) = None /\
  details (view closed) = None.
Proof.
  intros Hi opened closed.
  assert (Hlen : (Z.of_nat (length (transfers (ui w))) >? 0) = true).
  { destruct (transfers (ui w)) as [ | x l ].
    - destruct i; discriminate Hi.
    - cbn [length]. apply Z.gtb_lt. lia. }
  assert (Hopen : opened = sync (onClick_date transfer) w).
  { subst opened. unfold step, view, App. cbn [history].
    rewrite Hlen, Hi. reflexivity. }
  split.
  - exists (map render_row (transfers (ui w))),
           (render_pagination (pagination (ui w))).
    unfold view, App. cbn [history]. rewrite Hlen.
    split; [reflexivity | split; [ | reflexivity ] ].
    now apply map_nth_error.
  - subst closed. rewrite Hopen. cbn. repeat split; reflexivity.
Qed.

Lemma C6_overlay_witness :
  let w := {| wallet := sample_account; ui := scenario_state;
              in_flight := []; outside := [] |} in
  option_map cell_date
    (nth_error (map render_row (transfers (ui w))) 0) = Some (new_Date 1000) /\
  details (view (step (ClickDate 0) w))
  = Some (mkDetails "0xA" "0xB" "100" (new_Date 1000000)) /\
  details (view (step ClickClose (step (ClickDate 0) w))) = None.
Proof.
  cbn zeta.
  destruct (C6_row_date_and_detail_overlay
              {| wallet := sample_account; ui := scenario_state;
                 in_flight := []; outside := [] |} 0%nat sample_transfer
              eq_refl) as (_ & _ & Hd & _ & Hc).
  split; [reflexivity | split; [exact Hd | exact Hc]].
Defined.

(** ** Handlers that touch one cell, or none *)

(** Any number of filter changes leaves everything but the filter as it
    was. *)
Lemma filter_changes_frame (fs : list Filter) (w : World) :
  let w1 := steps (map ChangeFilter fs) w in
  wallet w1 = wallet w /\
  transfers (ui w1) = transfers (ui w) /\
  pagination (ui w1) = pagination (ui w) /\
  isLoading (ui w1) = isLoading (ui w) /\
  fetchError (ui w1) = fetchError (ui w) /\
  selectedTransfer (ui w1) = selectedTransfer (ui w) /\
  in_flight w1 = in_flight w /\
  outside w1 = outside w.
Proof.
  revert w. induction fs as [ | f fs IH ]; intros w.
  - cbn. repeat split; reflexivity.
  - cbn [map]. change (steps (ChangeFilter f :: map ChangeFilter fs) w)
      with (steps (map ChangeFilter fs) (step (ChangeFilter f) w)).
    cbn zeta in IH |- *.
    destruct (IH (step (ChangeFilter f) w))
      as (Hw & Ht & Hp & Hl & He & Hs & Hi & Ho).
    rewrite Hw, Ht, Hp, Hl, He, Hs, Hi, Ho.
    unfold step. destruct (controls (view w)).
    + cbn. rewrite app_nil_r. repeat split; reflexivity.
    + repeat split; reflexivity.
Qed.

(** C7: the handler of a filter radio button calls [setFilter] and nothing
    else: the filter becomes the chosen one, the transfer list, pagination,
    loading flag, error string and selected record are unchanged, and no
    request is made; after any number of filter changes the view shows the
    same table, no call has left the component and no request is pending. *)
Theorem C7_setFilter_changes_only_the_filter
    (f : Filter) (s : AppState) (fs : list Filter) (w : World) :
  let s1 := handle (onChange_filter f) s in
  let w1 := steps (map ChangeFilter fs) w in
  fst (onChange_filter f) = [SetFilter f] /\
  requests (fst (onChange_filter f)) = [] /\
  filter s1 = f /\
  transfers s1 = transfers s /\
  pagination s1 = pagination s /\
  isLoading s1 = isLoading s /\
  fetchError s1 = fetchError s /\
  selectedTransfer s1 = selectedTransfer s /\
  history (view w1) = history (view w) /\
  outside w1 = outside w /\
  in_flight w1 = in_flight w.
Proof.
  cbn zeta.
  destruct (filter_changes_frame fs w)
    as (Hw & Ht & Hp & Hl & He & Hs & Hi & Ho).
  cbn zeta in *.
  repeat (split; [reflexivity | ]).
  split; [ | split; assumption ].
  unfold view, App. cbn [history]. now rewrite Ht, Hp.
Qed.

(** C8, as stated, fails: [page + 1] is a sum of doubles.  At page [2 ^ 53]
    of [2 ^ 53 + 2] Next is enabled, and its handler leaves the page at
    [2 ^ 53], the double nearest to [2 ^ 53 + 1]: the page does not change
    by one. *)
Lemma C8_counterexample_next_at_2_53 :
  let s := large_page_state in
  let w := world_of sample_account s in
  page (pagination s) = 2 ^ 53 /\
  is_double (page (pagination s)) = true /\
  is_double (pages (pagination s)) = true /\
  (exists rows pc,
     history (view w) = Some (rows, pc) /\ next_disabled pc = false) /\
  page (pagination (handle onClick_next s)) = 2 ^ 53 /\
  page (pagination (handle onClick_next s)) <> page (pagination s) + 1 /\
  page (pagination (ui (step ClickNext w))) = page (pagination s).
Proof.
  cbn zeta. split; [reflexivity | ]. split; [reflexivity | ].
  split; [reflexivity | ].
  split; [do 2 eexists; split; reflexivity | ].
  split; [reflexivity | ]. split; [discriminate | reflexivity].
Qed.

(** C8, amended: the handlers of Previous and Next keep [limit], [total] and
    [pages] and the other cells, and make no request; for a page that is a
    safe integer they replace it by exactly [page - 1] and [page + 1] (above
    the safe integers the sum is rounded to a double).  The updater does not
    clamp: from page 1 Previous gives page 0.  A click reaches the handler
    only when the table is rendered and the button is not disabled;
    otherwise the page stays as it is. *)
Theorem C8_page_buttons_shift_page_by_one (s : AppState) (w : World) :
  let prev := handle onClick_previous s in
  let next := handle onClick_next s in
  let p := pagination (ui w) in
  let rendered := Z.of_nat (length (transfers (ui w))) >? 0 in
  (is_safe (page (pagination s)) ->
   page (pagination prev) = page (pagination s) - 1 /\
   page (pagination next) = page (pagination s) + 1) /\
  (limit (pagination prev) = limit (pagination s) /\
   total (pagination prev) = total (pagination s) /\
   pages (pagination prev) = pages (pagination s) /\
   transfers prev = transfers s) /\
  (limit (pagination next) = limit (pagination s) /\
   total (pagination next) = total (pagination s) /\
   pages (pagination next) = pages (pagination s) /\
   transfers next = transfers s) /\
  (requests (fst onClick_previous) = [] /\
   requests (fst onClick_next) = []) /\
  page (pagination (handle onClick_previous initial_state)) = 0 /\
  (is_safe (page p) ->
   page (pagination (ui (step ClickPrevious w)))
   = (if rendered && negb (page p <=? 1) then page p - 1 else page p) /\
   page (pagination (ui (step ClickNext w)))
   = (if rendered && negb (page p >=? pages p) then page p + 1 else page p)) /\
  (rendered && negb (page p <=? 1) = false ->
   page (pagination (ui (step ClickPrevious w))) = page p) /\
  (rendered && negb (page p >=? pages p) = false ->
   page (pagination (ui (step ClickNext w))) = page p) /\
  transfers (ui (step ClickPrevious w)) = transfers (ui w) /\
  transfers (ui (step ClickNext w)) = transfers (ui w) /\
  outside (step ClickPrevious w) = outside w /\
  outside (step ClickNext w) = outside w /\
  in_flight (step ClickPrevious w) = in_flight w /\
  in_flight (step ClickNext w) = in_flight w.
Proof.
  cbn zeta.
  split.
  { intros Hs. destruct (round_double_succ_safe _ Hs) as [Hn Hp].
    split; cbn; assumption. }
  do 4 (split; [repeat split; reflexivity | ]).
  split.
  { intros Hs. destruct (round_double_succ_safe _ Hs) as [Hn Hp].
    unfold step, view, App. cbn [history].
    destruct (Z.of_nat (length (transfers (ui w))) >? 0); cbn;
      destruct (page (pagination (ui w)) <=? 1);
      destruct (page (pagination (ui w)) >=? pages (pagination (ui w)));
      cbn; split; first [reflexivity | assumption]. }
  unfold step, view, App. cbn [history].
  destruct (Z.of_nat (length (transfers (ui w))) >? 0); cbn;
    destruct (page (pagination (ui w)) <=? 1);
    destruct (page (pagination (ui w)) >=? pages (pagination (ui w)));
    cbn; rewrite ?app_nil_r; repeat split;
    first [reflexivity | discriminate].
Qed.

(** Page 2 of 3: Previous gives page 1, Next gives page 3. *)
Lemma C8_page_buttons_witness :
  page (pagination (handle onClick_previous sample_state)) = 1 /\
  page (pagination (handle onClick_next sample_state)) = 3 /\
  page (pagination
          (ui (step ClickNext (world_of sample_account sample_state)))) = 3.
Proof.
  assert (Hs : is_safe 2) by (unfold is_safe, MAX_SAFE_INTEGER; cbn; lia).
  destruct (C8_page_buttons_shift_page_by_one sample_state
              (world_of sample_account sample_state))
    as (H1 & _ & _ & _ & _ & H2 & _).
  destruct (H1 Hs) as [Hp Hn]. destruct (H2 Hs) as [_ Hw].
  split; [exact Hp | split; [exact Hn | exact Hw]].
Defined.

(** C9: the handler of Disconnect calls the connector's [disconnect] and no
    setter: every state cell keeps its value, and whatever the wallet
    library then reports as the account, the table and the detail overlay
    are rendered as before. *)
Theorem C9_disconnect_clears_nothing (s : AppState) (w : World) (a : Account) :
  let w1 := step (WalletUpdate a) (step ClickDisconnect w) in
  fst onClick_disconnect = [CallDisconnect] /\
  handle onClick_disconnect s = s /\
  ui (step ClickDisconnect w) = ui w /\
  ui w1 = ui w /\
  history (view w1) = history (view w) /\
  details (view w1) = details (view w) /\
  loading_text (view w1) = loading_text (view w) /\
  error_paragraph (view w1) = error_paragraph (view w).
Proof.
  cbn zeta.
  assert (H : ui (step ClickDisconnect w) = ui w).
  { unfold step. destruct (controls (view w)); [ | reflexivity ].
    destruct w as [wa [ts pg fl ld er sel] pend out]. reflexivity. }
  remember (step ClickDisconnect w) as w0 eqn:E.
  split; [reflexivity | ].
  split; [destruct s; reflexivity | ].
  split; [exact H | ].
  unfold view. cbn [step wallet ui]. rewrite H.
  repeat split; reflexivity.
Qed.

(** ** fetchTransfers: the error string *)

(** C10: the second call [fetchTransfers] makes, before the request goes
    out, is [setFetchError('')]: once the handler has suspended the error
    string is empty, whatever it was.  So when the request then succeeds (a
    2xx response whose body is read without a throw), a call that ran from
    start to end on any state, in particular on the one left by a failed
    attempt, leaves the error string empty and no error paragraph in the
    view. *)
Theorem C10_error_reset_before_request :
  (forall (fetch : fetch_api) (account : Account) (s : AppState),
     before_await (fst (fetchTransfers fetch account s))
     = [SetIsLoading true; SetFetchError "";
        CallFetch (URL_toString (request_url account s))] /\
     fetchError (fetch_start fetch account s) = "" /\
     error_paragraph (App account (fetch_start fetch account s)) = None) /\
  (forall (fetch : fetch_api) (account : Account) (s : AppState)
          (r : Response) (data : json_data)
          (t : js_field (list Transfer)) (p : js_field Pagination),
     fetch (URL_toString (request_url account s)) = Normal r ->
     ok r = true ->
     json r = Normal data ->
     data_transfers data = ret t ->
     data_pagination data = ret p ->
     fetchError (fetch_run fetch account s) = "" /\
     error_paragraph (App account (fetch_run fetch account s)) = None).
Proof.
  split.
  - intros fetch account s. rewrite fetch_start_eq.
    destruct (trace_prologue fetch account s) as [tail ->].
    repeat split; reflexivity.
  - intros fetch account s r data t p Hf Hok Hj Ht Hp.
    unfold fetch_run. rewrite fetch_start_eq.
    destruct data as [ | t0 p0 | ]; [discriminate Ht | | ].
    + rewrite (fetch_finish_object _ _ _ _ _ _ _ Hf Hok Hj).
      split; reflexivity.
    + rewrite (fetch_finish_other _ _ _ _ _ Hf Hok Hj).
      split; reflexivity.
Qed.

(** A rejected request, then the request of the scenario. *)
Lemma C10_error_reset_witness :
  let failed := fetch_run (reject (JsError "Failed to fetch")) sample_account
                  initial_state in
  fetchError failed = "Failed to fetch" /\
  fetchError (fetch_run (respond scenario_200) sample_account failed) = "" /\
  error_paragraph
    (App sample_account (fetch_run (respond scenario_200) sample_account failed))
  = None.
Proof.
  cbn zeta. split; [reflexivity | ].
  exact (proj2 C10_error_reset_before_request
           (respond scenario_200) sample_account
           (fetch_run (reject (JsError "Failed to fetch")) sample_account
              initial_state)
           scenario_200
           (DataObject (Val [sample_transfer])
              (Val {| page := 1; limit := 10; total := 1; pages := 1 |}))
           (Val [sample_transfer])
           (Val {| page := 1; limit := 10; total := 1; pages := 1 |})
           eq_refl eq_refl eq_refl eq_refl eq_refl).
Defined.

(** ** Scenarios *)

(** A connected account fetches the one-row page: one row is shown and both
    pagination buttons are disabled. *)
Example scenario_one_row :
  let w := steps [ClickFetch (respond scenario_200); Settle 0]
             (initial_world sample_account) in
  history (view w)
  = Some ([mkRow "0xA" "0xB" "100" (new_Date 1000)],
          mkPaginationControls true 1 1 true) /\
  loading_text (view w) = false /\
  error_paragraph (view w) = None /\
  in_flight w = [] /\
  outside w
  = [CallFetch "http://localhost:3001/api/transfers/0xf39Fd6e51aad88F6F4ce6aB8827279cffFb92266?page=1&limit=10"].
Proof. repeat split; reflexivity. Qed.

(** The same account then gets a response of status 500: the error text is
    shown and the table is the one of before. *)
Example scenario_http_500 :
  let before := steps [ClickFetch (respond scenario_200); Settle 0]
                  (initial_world sample_account) in
  let w := steps [ClickFetch (respond error_500); Settle 0] before in
  error_paragraph (view w) = Some "Network response was not ok" /\
  history (view w) = history (view before) /\
  loading_text (view w) = false.
Proof. repeat split; reflexivity. Qed.

(** While the request is pending the loading text is shown and the old error
    is gone. *)
Example scenario_pending :
  let w := step (ClickFetch (respond scenario_200))
             {| wallet := sample_account; ui := sample_state;
                in_flight := []; outside := [] |} in
  loading_text (view w) = true /\
  error_paragraph (view w) = None /\
  length (in_flight w) = 1%nat.
Proof. repeat split; reflexivity. Qed.

(** Two calls in flight: the response that settles last decides the table. *)
Example scenario_last_settled_wins :
  let w := steps [ClickFetch (respond partial_200);
                  ClickFetch (respond scenario_200);
                  Settle 1; Settle 0]
             (initial_world sample_account) in
  transfers (ui w) = [sample_transfer; sample_transfer] /\
  pagination (ui w) = default_pagination.
Proof. repeat split; reflexivity. Qed.

(** A click on a button that is not rendered or is disabled does nothing. *)
Example scenario_disabled_previous :
  let w := {| wallet := sample_account; ui := scenario_state;
              in_flight := []; outside := [] |} in
  step ClickPrevious w = w /\ step ClickNext w = w /\
  step ClickClose w = w /\
  step (ClickFetch (respond scenario_200)) (initial_world
    (mkAccount disconnected None None))
  = initial_world (mkAccount disconnected None None).
Proof. repeat split; reflexivity. Qed.

(** ** More on the continuation of [fetchTransfers] *)

(** X1: the continuation of [fetchTransfers] is all or nothing, and which
    of the two is decided by the answer alone.  Either the response was 2xx
    with a body read without a throw, and then the list and the pagination
    are both replaced by what the body gives, the error string is left
    alone and nothing is logged; or [fetch] rejected, the response was not
    2xx, or the body could not be read, and then the list and the
    pagination are both left alone, the error string is the text of what
    was thrown and [console.error] is called once with it.  In both cases
    the loading flag is cleared and the filter and the selected record are
    kept. *)
Theorem X1_settle_all_or_nothing
    (fetch : fetch_api) (account : Account) (s s' : AppState) :
  let k := after_await (fst (fetchTransfers fetch account s)) in
  let s1 := fetch_finish fetch account s s' in
  isLoading s1 = false /\
  filter s1 = filter s' /\
  selectedTransfer s1 = selectedTransfer s' /\
  ((exists r t p,
      fetch (URL_toString (request_url account s)) = Normal r /\
      ok r = true /\
      (json r = Normal (DataObject t p) \/
       json r = Normal DataOther /\ t = Undefined /\ p = Undefined) /\
      transfers s1 = or_default t [] /\
      pagination s1 = or_default p default_pagination /\
      fetchError s1 = fetchError s' /\
      List.filter is_external k = [])
   \/
   (exists e,
      (fetch (URL_toString (request_url account s)) = Throw e \/
       (exists r,
          fetch (URL_toString (request_url account s)) = Normal r /\
          ok r = false /\ e = JsError "Network response was not ok") \/
       (exists r,
          fetch (URL_toString (request_url account s)) = Normal r /\
          ok r = true /\ body_read_throws r e)) /\
      transfers s1 = transfers s' /\
      pagination s1 = pagination s' /\
      fetchError s1 = error_text e /\
      List.filter is_external k
      = [ConsoleError "Failed to fetch transfers:" e])).
Proof.
  cbn zeta. unfold fetch_finish. fetch_cases fetch account s.
  - rewrite (trace_null _ _ _ _ Hfetch Hok Hjson).
    repeat (split; [reflexivity | ]). right. eexists. split.
    + right. right. exists r. split; [reflexivity | ]. split; [exact Hok | ].
      right. split; [exact Hjson | reflexivity].
    + repeat split; reflexivity.
  - rewrite (trace_object _ _ _ _ _ _ Hfetch Hok Hjson).
    repeat (split; [reflexivity | ]). left.
    exists r. do 2 eexists. split; [reflexivity | ]. split; [exact Hok | ].
    split; [left; exact Hjson | ]. repeat split; reflexivity.
  - rewrite (trace_other _ _ _ _ Hfetch Hok Hjson).
    repeat (split; [reflexivity | ]). left.
    exists r, Undefined, Undefined. split; [reflexivity | ].
    split; [exact Hok | ].
    split; [right; split; [exact Hjson | split; reflexivity] | ].
    repeat split; reflexivity.
  - rewrite (trace_json_rejected _ _ _ _ _ Hfetch Hok Hjson).
    repeat (split; [reflexivity | ]). right. eexists. split.
    + right. right. exists r. split; [reflexivity | ]. split; [exact Hok | ].
      left. exact Hjson.
    + repeat split; reflexivity.
  - rewrite (trace_not_ok _ _ _ _ Hfetch Hok).
    repeat (split; [reflexivity | ]). right. eexists. split.
    + right. left. exists r. split; [reflexivity | ].
      split; [exact Hok | reflexivity].
    + repeat split; reflexivity.
  - rewrite (trace_rejected _ _ _ _ Hfetch).
    repeat (split; [reflexivity | ]). right. eexists. split.
    + left. reflexivity.
    + repeat split; reflexivity.
Qed.

(** X2: a 2xx response whose body cannot be read is a failure like the
    others: when [response.json()] rejects, or the body is [null], the list
    and the pagination stay as they were, the error string becomes the
    message of the thrown error, [console.error] receives that error, and
    the loading flag is cleared. *)
Theorem X2_unreadable_body_is_a_failure
    (fetch : fetch_api) (account : Account) (s s' : AppState)
    (r : Response) (e : thrown) :
  fetch (URL_toString (request_url account s)) = Normal r ->
  ok r = true ->
  body_read_throws r e ->
  let k := after_await (fst (fetchTransfers fetch account s)) in
  let s1 := fetch_finish fetch account s s' in
  transfers s1 = transfers s' /\
  pagination s1 = pagination s' /\
  fetchError s1 = error_text e /\
  isLoading s1 = false /\
  List.filter is_external k = [ConsoleError "Failed to fetch transfers:" e].
Proof.
  intros Hf Hok [Hj | [Hj ->]]; cbn zeta; unfold fetch_finish.
  - rewrite (trace_json_rejected _ _ _ _ _ Hf Hok Hj).
    repeat split; reflexivity.
  - rewrite (trace_null _ _ _ _ Hf Hok Hj). repeat split; reflexivity.
Qed.

Lemma X2_unreadable_body_witness :
  let s1 := fetch_finish (respond unparsable_200) sample_account sample_state
              (fetch_start (respond unparsable_200) sample_account
                 sample_state) in
  transfers s1 = [sample_transfer] /\
  pagination s1 = pagination sample_state /\
  fetchError s1 = "Unexpected end of JSON input" /\
  isLoading s1 = false.
Proof.
  cbn zeta.
  destruct (X2_unreadable_body_is_a_failure
              (respond unparsable_200) sample_account sample_state
              (fetch_start (respond unparsable_200) sample_account
                 sample_state)
              unparsable_200 (JsError "Unexpected end of JSON input")
              eq_refl eq_refl (or_introl eq_refl))
    as (Ht & Hp & He & Hl & _).
  repeat split; assumption.
Defined.

(** X3: up to its first [await], [fetchTransfers] touches the loading flag
    and the error string only: while the request is pending the table, the
    pagination controls and the overlay are rendered as before the click,
    and the filter is the one chosen. *)
Theorem X3_pending_request_keeps_the_table
    (fetch : fetch_api) (account : Account) (s : AppState) :
  let s1 := fetch_start fetch account s in
  history (App account s1) = history (App account s) /\
  details (App account s1) = details (App account s) /\
  controls (App account s1) = controls (App account s) /\
  transfers s1 = transfers s /\
  pagination s1 = pagination s /\
  request_url account s1 = request_url account s.
Proof.
  cbn zeta. rewrite fetch_start_eq. repeat split; reflexivity.
Qed.

(** ** Requests *)

Lemma requests_app (l1 l2 : list action) :
  requests (l1 ++ l2) = requests l1 ++ requests l2.
Proof.
  induction l1 as [ | a l1 IH ]; [reflexivity | ].
  destruct a; cbn; now rewrite ?IH.
Qed.

Lemma requests_external (l : list action) :
  requests (List.filter is_external l) = requests l.
Proof.
  induction l as [ | a l IH ]; [reflexivity | ].
  destruct a; cbn; now rewrite ?IH.
Qed.

(** What runs after the first [await] calls [fetch] no more. *)
Lemma continuation_quiet (fetch : fetch_api) (account : Account)
    (s : AppState) :
  requests (after_await (fst (fetchTransfers fetch account s))) = [].
Proof.
  pose proof (fetchTransfers_requests fetch account s) as H.
  destruct (trace_prologue fetch account s) as [tail E].
  rewrite E in *. cbn in H |- *. now injection H.
Qed.

Lemma Forall_remove_nth {A : Type} (P : A -> Prop) (i : nat) (l : list A) :
  Forall P l -> Forall P (remove_nth i l).
Proof.
  intros H. revert i. induction H as [ | a l Ha Hl IH ]; intros i.
  - destruct i; constructor.
  - destruct i as [ | i ].
    + exact Hl.
    + change (Forall P (a :: remove_nth i l)). constructor; [exact Ha | apply IH].
Qed.

(** A click on Fetch Transfers by a connected account. *)
Lemma step_ClickFetch_connected (fetch : fetch_api) (w : World) :
  status (wallet w) = connected ->
  step (ClickFetch fetch) w
  = {| wallet := wallet w;
       ui := fetch_start fetch (wallet w) (ui w);
       in_flight := in_flight w
                    ++ [after_await (fst (fetchTransfers fetch (wallet w)
                                            (ui w)))];
       outside := outside w
                  ++ [CallFetch (URL_toString (request_url (wallet w)
                                                 (ui w)))] |}.
Proof.
  intros H. unfold step, view, App, fetch_start. cbn [controls]. rewrite H.
  destruct (trace_prologue fetch (wallet w) (ui w)) as [tail ->].
  reflexivity.
Qed.

Lemma step_ClickFetch_not_connected (fetch : fetch_api) (w : World) :
  status (wallet w) <> connected -> step (ClickFetch fetch) w = w.
Proof.
  intros H. unfold step, view, App. cbn [controls].
  destruct (status (wallet w)); [contradiction | reflexivity ..].
Qed.

(** One event sends at most one request, and only a click on Fetch does. *)
Lemma step_requests (ev : event) (w : World) :
  pending_quiet w ->
  pending_quiet (step ev w) /\
  (length (requests (outside (step ev w)))
   <= length (requests (outside w)) + (if is_fetch_click ev then 1 else 0))%nat.
Proof.
  unfold pending_quiet. intros Hq.
  destruct ev as [fetch | i | f | i | | | | | c | a]; unfold step.
  - destruct (controls (view w)); [ | cbn; split; [exact Hq | lia] ].
    pose proof (continuation_quiet fetch (wallet w) (ui w)) as Hk.
    destruct (trace_prologue fetch (wallet w) (ui w)) as [tail E].
    rewrite E in *. cbn in Hk. cbn. split.
    + apply Forall_app. split; [exact Hq | now constructor].
    + rewrite requests_app, length_app. cbn. lia.
  - destruct (nth_error (in_flight w) i) as [k | ] eqn:Hi;
      [ | cbn; split; [exact Hq | lia] ].
    cbn. split; [now apply Forall_remove_nth | ].
    rewrite requests_app, requests_external, length_app.
    rewrite Forall_forall in Hq.
    rewrite (Hq k (nth_error_In _ _ Hi)). cbn. lia.
  - destruct (controls (view w)); cbn; rewrite ?app_nil_r;
      (split; [exact Hq | lia]).
  - destruct (history (view w)); [ | cbn; split; [exact Hq | lia] ].
    destruct (nth_error (transfers (ui w)) i); cbn; rewrite ?app_nil_r;
      (split; [exact Hq | lia]).
  - destruct (history (view w)) as [[rows pc] | ];
      [ destruct (previous_disabled pc) | ]; cbn; rewrite ?app_nil_r;
      (split; [exact Hq | lia]).
  - destruct (history (view w)) as [[rows pc] | ];
      [ destruct (next_disabled pc) | ]; cbn; rewrite ?app_nil_r;
      (split; [exact Hq | lia]).
  - destruct (details (view w)); cbn; rewrite ?app_nil_r;
      (split; [exact Hq | lia]).
  - destruct (controls (view w)); cbn;
      rewrite ?requests_app, ?length_app; cbn; (split; [exact Hq | lia]).
  - cbn. rewrite requests_app, length_app. cbn. split; [exact Hq | lia].
  - cbn. split; [exact Hq | lia].
Qed.

Lemma steps_requests (evs : list event) (w : World) :
  pending_quiet w ->
  (length (requests (outside (steps evs w)))
   <= length (requests (outside w)) + count_fetch_clicks evs)%nat.
Proof.
  revert w. induction evs as [ | ev evs IH ]; intros w Hq.
  - cbn. lia.
  - change (steps (ev :: evs) w) with (steps evs (step ev w)).
    destruct (step_requests ev w Hq) as [Hq' Hle].
    specialize (IH (step ev w) Hq').
    unfold count_fetch_clicks in *. cbn [List.filter].
    destruct (is_fetch_click ev); cbn [length]; lia.
Qed.

(** X4: the component calls [fetch], the request for the transfer
    history, only from the Fetch Transfers button.  Over any sequence of
    events from the initial state, the number of calls of [fetch] is at most
    the number of clicks on that button: nothing is retried, and no change
    of filter or page, no settling and no wallet update calls it.  A click
    by a connected account calls it exactly once, with the URL of the
    current page, limit and filter; a click is impossible for an account
    that is not connected.  (The balance read that [useReadContract] repeats
    on its own schedule is made by that hook, not by a call of [fetch] of
    this component, and is not among the actions counted here.) *)
Theorem X4_requests_only_from_fetch_clicks :
  (forall (evs : list event) (a : Account),
     (length (requests (outside (steps evs (initial_world a))))
      <= count_fetch_clicks evs)%nat) /\
  (forall (fetch : fetch_api) (w : World),
     status (wallet w) = connected ->
     requests (outside (step (ClickFetch fetch) w))
     = requests (outside w)
       ++ [URL_toString (request_url (wallet w) (ui w))]) /\
  (forall (fetch : fetch_api) (w : World),
     status (wallet w) <> connected ->
     step (ClickFetch fetch) w = w).
Proof.
  split; [ | split ].
  - intros evs a.
    apply (steps_requests evs (initial_world a)). constructor.
  - intros fetch w H. rewrite (step_ClickFetch_connected fetch w H).
    cbn [outside]. now rewrite requests_app.
  - intros fetch w H. now apply step_ClickFetch_not_connected.
Qed.

Lemma X4_requests_witness :
  requests (outside (step (ClickFetch (respond scenario_200))
                       (world_of sample_account sample_state)))
  = [URL_toString (request_url sample_account sample_state)].
Proof.
  exact (proj1 (proj2 X4_requests_only_from_fetch_clicks)
           (respond scenario_200) (world_of sample_account sample_state)
           eq_refl).
Defined.

(** ** Pages *)

Lemma rendered_nonempty (s : AppState) :
  transfers s <> [] -> (Z.of_nat (length (transfers s)) >? 0) = true.
Proof.
  destruct (transfers s) as [ | x l ]; [contradiction | intros _ ].
  cbn [length]. apply Z.gtb_lt. lia.
Qed.

Lemma history_Some (account : Account) (s : AppState) (rows : list Row)
    (pc : PaginationControls) :
  history (App account s) = Some (rows, pc) ->
  transfers s <> [] /\
  rows = map render_row (transfers s) /\
  pc = render_pagination (pagination s).
Proof.
  unfold App. cbn [history].
  destruct (transfers s) as [ | x l ]; [discriminate | ].
  destruct (Z.of_nat (length (x :: l)) >? 0); [ | discriminate ].
  intros H. injection H as <- <-. repeat split. discriminate.
Qed.

Lemma history_None (account : Account) (s : AppState) :
  transfers s = [] -> history (App account s) = None.
Proof. unfold App. cbn [history]. now intros ->. Qed.

Lemma step_ClickPrevious_enabled (w : World) :
  transfers (ui w) <> [] ->
  1 < page (pagination (ui w)) ->
  step ClickPrevious w = sync onClick_previous w.
Proof.
  intros Ht Hp. unfold step, view, App. cbn [history].
  rewrite (rendered_nonempty _ Ht). cbn [render_pagination previous_disabled].
  destruct (Z.leb_spec (page (pagination (ui w))) 1); [lia | reflexivity].
Qed.

Lemma step_ClickNext_enabled (w : World) :
  transfers (ui w) <> [] ->
  page (pagination (ui w)) < pages (pagination (ui w)) ->
  step ClickNext w = sync onClick_next w.
Proof.
  intros Ht Hp. unfold step, view, App. cbn [history].
  rewrite (rendered_nonempty _ Ht). cbn [render_pagination next_disabled].
  rewrite Z.geb_leb.
  destruct (Z.leb_spec (pages (pagination (ui w))) (page (pagination (ui w))));
    [lia | reflexivity].
Qed.

(** An event other than a settling keeps the list, and moves the page at
    most through an enabled Previous or Next. *)
Lemma step_no_settle (ev : event) (w : World) :
  is_settle ev = false ->
  transfers (ui (step ev w)) = transfers (ui w) /\
  limit (pagination (ui (step ev w))) = limit (pagination (ui w)) /\
  total (pagination (ui (step ev w))) = total (pagination (ui w)) /\
  pages (pagination (ui (step ev w))) = pages (pagination (ui w)) /\
  (page (pagination (ui (step ev w))) = page (pagination (ui w)) \/
   page (pagination (ui (step ev w)))
   = round_double (page (pagination (ui w)) - 1) /\
   1 < page (pagination (ui w)) \/
   page (pagination (ui (step ev w)))
   = round_double (page (pagination (ui w)) + 1) /\
   page (pagination (ui w)) < pages (pagination (ui w))).
Proof.
  destruct ev as [fetch | i | f | i | | | | | c | a]; intros Hs;
    try discriminate Hs; unfold step.
  - destruct (controls (view w)); [ | repeat split; now left ].
    destruct (trace_prologue fetch (wallet w) (ui w)) as [tail ->].
    cbn. repeat split; now left.
  - destruct (controls (view w)); cbn; repeat split; now left.
  - destruct (history (view w)); [ | repeat split; now left ].
    destruct (nth_error (transfers (ui w)) i); cbn; repeat split; now left.
  - destruct (history (view w)) as [[rows pc] | ] eqn:Hh;
      [ | repeat split; now left ].
    destruct (history_Some _ _ _ _ Hh) as (_ & _ & ->).
    cbn [render_pagination previous_disabled].
    destruct (Z.leb_spec (page (pagination (ui w))) 1);
      [repeat split; now left | ].
    cbn. repeat split. right. left. split; [reflexivity | lia].
  - destruct (history (view w)) as [[rows pc] | ] eqn:Hh;
      [ | repeat split; now left ].
    destruct (history_Some _ _ _ _ Hh) as (_ & _ & ->).
    cbn [render_pagination next_disabled]. rewrite Z.geb_leb.
    destruct (Z.leb_spec (pages (pagination (ui w)))
                (page (pagination (ui w))));
      [repeat split; now left | ].
    cbn. repeat split. right. right. split; [reflexivity | lia].
  - destruct (details (view w)); cbn; repeat split; now left.
  - destruct (controls (view w)); cbn; repeat split; now left.
  - cbn. repeat split; now left.
  - cbn. repeat split; now left.
Qed.

Lemma steps_no_settle_data (evs : list event) (w : World) :
  forallb (fun ev => negb (is_settle ev)) evs = true ->
  transfers (ui (steps evs w)) = transfers (ui w) /\
  limit (pagination (ui (steps evs w))) = limit (pagination (ui w)) /\
  total (pagination (ui (steps evs w))) = total (pagination (ui w)) /\
  pages (pagination (ui (steps evs w))) = pages (pagination (ui w)).
Proof.
  revert w. induction evs as [ | ev evs IH ]; intros w Hall.
  - cbn. repeat split; reflexivity.
  - change (steps (ev :: evs) w) with (steps evs (step ev w)).
    cbn [forallb] in Hall. apply andb_prop in Hall as [Hev Hall].
    apply negb_true_iff in Hev.
    destruct (step_no_settle ev w Hev) as (Ht & Hl & Hto & Hps & _).
    destruct (IH (step ev w) Hall) as (Ht' & Hl' & Hto' & Hps').
    rewrite Ht', Hl', Hto', Hps', Ht, Hl, Hto, Hps.
    repeat split; reflexivity.
Qed.

(** One step keeps the page a number within the range. *)
Lemma step_no_settle_range (ev : event) (w : World) :
  is_settle ev = false ->
  js_pagination (pagination (ui w)) ->
  page_in_range (pagination (ui w)) ->
  js_pagination (pagination (ui (step ev w))) /\
  page_in_range (pagination (ui (step ev w))).
Proof.
  intros Hev [Hdp Hdps] [Hlo Hhi].
  destruct (step_no_settle ev w Hev) as (_ & _ & _ & Hps & Hp).
  unfold js_pagination, page_in_range. rewrite Hps.
  destruct Hp as [-> | [[-> H1] | [-> H1]]].
  - repeat split; assumption.
  - split; [split; [ | exact Hdps] | split].
    + apply (round_double_is_double (page (pagination (ui w)))); [exact Hdp | lia].
    + apply (round_double_lower 1); [reflexivity | lia].
    + pose proof (round_double_upper (page (pagination (ui w)))
                    (page (pagination (ui w)) - 1) Hdp ltac:(lia)). lia.
  - split; [split; [ | exact Hdps] | split].
    + apply (round_double_is_double (pages (pagination (ui w))));
        [exact Hdps | lia].
    + pose proof (round_double_lower (page (pagination (ui w)))
                    (page (pagination (ui w)) + 1) Hdp ltac:(lia)). lia.
    + apply round_double_upper; [exact Hdps | lia].
Qed.

Lemma steps_no_settle_range (evs : list event) (w : World) :
  forallb (fun ev => negb (is_settle ev)) evs = true ->
  js_pagination (pagination (ui w)) ->
  page_in_range (pagination (ui w)) ->
  js_pagination (pagination (ui (steps evs w))) /\
  page_in_range (pagination (ui (steps evs w))).
Proof.
  revert w. induction evs as [ | ev evs IH ]; intros w Hall Hjs Hin.
  - now split.
  - change (steps (ev :: evs) w) with (steps evs (step ev w)).
    cbn [forallb] in Hall. apply andb_prop in Hall as [Hev Hall].
    apply negb_true_iff in Hev.
    destruct (step_no_settle_range ev w Hev Hjs Hin) as [Hjs' Hin'].
    now apply IH.
Qed.

(** X5: the buttons keep the page in range.  When the page and the page
    count are numbers with [1 <= page <= pages], it is still so after any
    sequence of events in which no request settles (clicks on Previous,
    Next, Fetch Transfers, a date or Close, filter changes, connecting and
    disconnecting): only a response can put the page outside the range.
    This holds for every pair of numbers, rounded sums included. *)
Theorem X5_page_stays_in_range (evs : list event) (w : World) :
  forallb (fun ev => negb (is_settle ev)) evs = true ->
  js_pagination (pagination (ui w)) ->
  page_in_range (pagination (ui w)) ->
  page_in_range (pagination (ui (steps evs w))).
Proof.
  intros Hall Hjs Hin. now apply (steps_no_settle_range evs w Hall Hjs).
Qed.

Lemma X5_page_range_witness :
  page_in_range
    (pagination
       (ui (steps [ClickNext; ClickNext; ClickNext; ChangeFilter F_out;
                   ClickPrevious]
              (world_of sample_account sample_state)))) /\
  page_in_range
    (pagination
       (ui (steps [ClickNext; ClickNext; ClickNext]
              (world_of sample_account large_page_state)))).
Proof.
  split.
  - apply (X5_page_stays_in_range
             [ClickNext; ClickNext; ClickNext; ChangeFilter F_out;
              ClickPrevious]
             (world_of sample_account sample_state)).
    + reflexivity.
    + split; reflexivity.
    + unfold page_in_range. cbn. lia.
  - apply (X5_page_stays_in_range [ClickNext; ClickNext; ClickNext]
             (world_of sample_account large_page_state)).
    + reflexivity.
    + split; reflexivity.
    + unfold page_in_range. cbn. lia.
Defined.

(** X6: Previous and Next undo each other.  With the table rendered, the
    page in range and at most [2 ^ 53] pages, Previous followed by Next
    (from a page above 1) and Next followed by Previous (from a page below
    the last) give back the state the first click started from.  (Beyond
    [2 ^ 53] the rounding of [page + 1] can make the second click land
    elsewhere.) *)
Theorem X6_previous_next_round_trip (w : World) :
  transfers (ui w) <> [] ->
  page_in_range (pagination (ui w)) ->
  pages (pagination (ui w)) <= 2 ^ 53 ->
  (1 < page (pagination (ui w)) ->
   ui (steps [ClickPrevious; ClickNext] w) = ui w) /\
  (page (pagination (ui w)) < pages (pagination (ui w)) ->
   ui (steps [ClickNext; ClickPrevious] w) = ui w).
Proof.
  intros Ht [Hlo Hhi] Hsafe.
  assert (Hm : round_double (page (pagination (ui w)) - 1)
               = page (pagination (ui w)) - 1)
    by (apply round_double_exact; lia).
  split; intros Hp.
  - change (steps [ClickPrevious; ClickNext] w)
      with (step ClickNext (step ClickPrevious w)).
    rewrite (step_ClickPrevious_enabled w Ht Hp).
    rewrite step_ClickNext_enabled.
    + destruct w as [a [ts [pg lim tot pgs] fl ld er sel] pend out].
      cbn in *. rewrite Hm. rewrite round_double_exact by lia.
      do 2 f_equal. lia.
    + exact Ht.
    + cbn. rewrite Hm. lia.
  - assert (Hn : round_double (page (pagination (ui w)) + 1)
                 = page (pagination (ui w)) + 1)
      by (apply round_double_exact; lia).
    change (steps [ClickNext; ClickPrevious] w)
      with (step ClickPrevious (step ClickNext w)).
    rewrite (step_ClickNext_enabled w Ht Hp).
    rewrite step_ClickPrevious_enabled.
    + destruct w as [a [ts [pg lim tot pgs] fl ld er sel] pend out].
      cbn in *. rewrite Hn. rewrite round_double_exact by lia.
      do 2 f_equal. lia.
    + exact Ht.
    + cbn. rewrite Hn. lia.
Qed.

Lemma X6_round_trip_witness :
  ui (steps [ClickPrevious; ClickNext] (world_of sample_account sample_state))
  = sample_state /\
  ui (steps [ClickNext; ClickPrevious] (world_of sample_account sample_state))
  = sample_state.
Proof.
  assert (Ht : transfers (ui (world_of sample_account sample_state)) <> [])
    by discriminate.
  assert (Hr : page_in_range
                 (pagination (ui (world_of sample_account sample_state))))
    by (unfold page_in_range; cbn; lia).
  assert (Hs : pages (pagination (ui (world_of sample_account sample_state)))
               <= 2 ^ 53)
    by (cbn; lia).
  destruct (X6_previous_next_round_trip
              (world_of sample_account sample_state) Ht Hr Hs) as [H1 H2].
  split; [apply H1 | apply H2]; cbn; lia.
Defined.

(** X7: with an empty transfer list (at the start, or after a response with
    no transfers) the table and the pagination buttons are not rendered,
    whatever the pagination state says: clicks on Previous, Next or a date
    cannot happen, and the page stays where it is until a request
    settles. *)
Theorem X7_empty_list_hides_pagination (w : World) (i : nat) :
  transfers (ui w) = [] ->
  history (view w) = None /\
  step ClickPrevious w = w /\
  step ClickNext w = w /\
  step (ClickDate i) w = w.
Proof.
  intros Ht. pose proof (history_None (wallet w) (ui w) Ht) as Hh.
  fold (view w) in Hh. unfold step. rewrite Hh. repeat split; reflexivity.
Qed.

(** The state after a response [{pagination: {page: 3, pages: 5, ...}}]
    without transfers. *)
Lemma X7_empty_list_witness :
  let s := mkAppState [] (mkPagination 3 10 42 5) F_all false "" None in
  history (view (world_of sample_account s)) = None /\
  step ClickPrevious (world_of sample_account s) = world_of sample_account s /\
  step ClickNext (world_of sample_account s) = world_of sample_account s.
Proof.
  cbn zeta.
  destruct (X7_empty_list_hides_pagination
              (world_of sample_account
                 (mkAppState [] (mkPagination 3 10 42 5) F_all false "" None))
              0%nat eq_refl) as (Hh & Hp & Hn & _).
  repeat split; assumption.
Defined.

(** X8: the transfer list, and the limit, total and page count of the
    pagination, change only when a request settles: no sequence of clicks,
    filter changes and wallet updates alters them. *)
Theorem X8_data_changes_only_on_settle (evs : list event) (w : World) :
  forallb (fun ev => negb (is_settle ev)) evs = true ->
  transfers (ui (steps evs w)) = transfers (ui w) /\
  limit (pagination (ui (steps evs w))) = limit (pagination (ui w)) /\
  total (pagination (ui (steps evs w))) = total (pagination (ui w)) /\
  pages (pagination (ui (steps evs w))) = pages (pagination (ui w)).
Proof.
  intros Hall.
  destruct (steps_no_settle_data evs w Hall) as (Ht & Hl & Hto & Hps).
  repeat split; assumption.
Qed.

Lemma X8_data_frame_witness :
  let evs := [ClickFetch (respond scenario_200); ChangeFilter F_out;
              ClickDate 0; ClickNext; ClickClose; ClickDisconnect;
              WalletUpdate (mkAccount disconnected None None)] in
  transfers (ui (steps evs (world_of sample_account sample_state)))
  = [sample_transfer] /\
  pages (pagination (ui (steps evs (world_of sample_account sample_state))))
  = 3.
Proof.
  cbn zeta.
  destruct (X8_data_changes_only_on_settle
              [ClickFetch (respond scenario_200); ChangeFilter F_out;
               ClickDate 0; ClickNext; ClickClose; ClickDisconnect;
               WalletUpdate (mkAccount disconnected None None)]
              (world_of sample_account sample_state) eq_refl)
    as (Ht & _ & _ & Hp).
  split; assumption.
Defined.

(** ** Overlapping calls *)

Lemma fetch_finish_clears_loading (fetch : fetch_api) (account : Account)
    (s s' : AppState) :
  isLoading (fetch_finish fetch account s s') = false.
Proof.
  fetch_cases fetch account s.
  - now rewrite (fetch_finish_null _ _ _ s' _ Hfetch Hok Hjson).
  - now rewrite (fetch_finish_object _ _ _ s' _ _ _ Hfetch Hok Hjson).
  - now rewrite (fetch_finish_other _ _ _ s' _ Hfetch Hok Hjson).
  - now rewrite (fetch_finish_json_rejected _ _ _ s' _ _ Hfetch Hok Hjson).
  - now rewrite (fetch_finish_not_ok _ _ _ s' _ Hfetch Hok).
  - now rewrite (fetch_finish_rejected _ _ _ s' _ Hfetch).
Qed.

(** Two clicks on Fetch Transfers in a row, by a connected account that
    waited for nothing. *)
Lemma two_fetch_clicks (f1 f2 : fetch_api) (w : World) :
  idle_connected w ->
  step (ClickFetch f2) (step (ClickFetch f1) w)
  = {| wallet := wallet w;
       ui := fetch_start f2 (wallet w) (fetch_start f1 (wallet w) (ui w));
       in_flight :=
         [after_await (fst (fetchTransfers f1 (wallet w) (ui w)));
          after_await (fst (fetchTransfers f2 (wallet w)
                              (fetch_start f1 (wallet w) (ui w))))];
       outside :=
         (outside w
          ++ [CallFetch (URL_toString (request_url (wallet w) (ui w)))])
         ++ [CallFetch (URL_toString
                          (request_url (wallet w)
                             (fetch_start f1 (wallet w) (ui w))))] |}.
Proof.
  intros [Hc Hi].
  rewrite (step_ClickFetch_connected f1 w Hc).
  rewrite step_ClickFetch_connected by exact Hc.
  cbn [wallet ui in_flight outside]. rewrite Hi. reflexivity.
Qed.

(** X9: the loading flag does not count requests.  When Fetch Transfers is
    clicked twice before anything settles, the flag is set while both
    requests are pending, and the settling of the first one clears it,
    whatever the two answers are, although the second request is still
    pending. *)
Theorem X9_loading_cleared_while_a_request_is_pending
    (f1 f2 : fetch_api) (w : World) :
  idle_connected w ->
  let w2 := steps [ClickFetch f1; ClickFetch f2] w in
  let w3 := step (Settle 0) w2 in
  isLoading (ui w2) = true /\
  length (in_flight w2) = 2%nat /\
  isLoading (ui w3) = false /\
  loading_text (view w3) = false /\
  length (in_flight w3) = 1%nat.
Proof.
  intros H. cbn zeta.
  change (steps [ClickFetch f1; ClickFetch f2] w)
    with (step (ClickFetch f2) (step (ClickFetch f1) w)).
  rewrite (two_fetch_clicks f1 f2 w H).
  split; [now rewrite fetch_start_eq | ].
  split; [reflexivity | ].
  unfold step, view. cbn [in_flight nth_error ui wallet App loading_text].
  change (isLoading
            (fetch_finish f1 (wallet w) (ui w)
               (fetch_start f2 (wallet w) (fetch_start f1 (wallet w) (ui w))))
          = false /\
          isLoading
            (fetch_finish f1 (wallet w) (ui w)
               (fetch_start f2 (wallet w) (fetch_start f1 (wallet w) (ui w))))
          = false /\
          length (remove_nth 0
                    [after_await (fst (fetchTransfers f1 (wallet w) (ui w)));
                     after_await (fst (fetchTransfers f2 (wallet w)
                                         (fetch_start f1 (wallet w) (ui w))))])
          = 1%nat).
  rewrite fetch_finish_clears_loading. repeat split; reflexivity.
Qed.

Lemma X9_loading_witness :
  let w2 := steps [ClickFetch (respond scenario_200);
                   ClickFetch (respond error_500)]
              (world_of sample_account sample_state) in
  isLoading (ui w2) = true /\
  isLoading (ui (step (Settle 0) w2)) = false /\
  length (in_flight (step (Settle 0) w2)) = 1%nat.
Proof.
  cbn zeta.
  destruct (X9_loading_cleared_while_a_request_is_pending
              (respond scenario_200) (respond error_500)
              (world_of sample_account sample_state)
              (conj eq_refl eq_refl)) as (H1 & _ & H2 & _ & H3).
  repeat split; assumption.
Defined.

(** X10: responses are applied in the order they settle, not in the order
    the requests were made.  When Fetch Transfers is clicked twice and the
    second request settles first, the first request, settling last with a
    2xx response and an object body, replaces the list and the pagination by
    its own, whatever the second request had brought. *)
Theorem X10_last_settled_response_wins
    (f1 f2 : fetch_api) (w : World) (r : Response)
    (t : js_field (list Transfer)) (p : js_field Pagination) :
  idle_connected w ->
  f1 (URL_toString (request_url (wallet w) (ui w))) = Normal r ->
  ok r = true ->
  json r = Normal (DataObject t p) ->
  let w4 := steps [ClickFetch f1; ClickFetch f2; Settle 1; Settle 0] w in
  transfers (ui w4) = or_default t [] /\
  pagination (ui w4) = or_default p default_pagination /\
  isLoading (ui w4) = false /\
  in_flight w4 = [].
Proof.
  intros H Hf Hok Hj. cbn zeta.
  change (steps [ClickFetch f1; ClickFetch f2; Settle 1; Settle 0] w)
    with (step (Settle 0)
            (step (Settle 1)
               (step (ClickFetch f2) (step (ClickFetch f1) w)))).
  rewrite (two_fetch_clicks f1 f2 w H).
  unfold step. cbn [in_flight nth_error ui wallet outside remove_nth firstn
                    skipn app].
  match goal with
  | |- transfers (run ?k ?s') = _ /\ _ =>
      change (run k s') with (fetch_finish f1 (wallet w) (ui w) s')
  end.
  rewrite (fetch_finish_object _ _ _ _ _ _ _ Hf Hok Hj).
  repeat split; reflexivity.
Qed.

Lemma X10_last_settled_witness :
  let w4 := steps [ClickFetch (respond partial_200);
                   ClickFetch (respond scenario_200); Settle 1; Settle 0]
              (world_of sample_account sample_state) in
  transfers (ui w4) = [sample_transfer; sample_transfer] /\
  pagination (ui w4) = default_pagination.
Proof.
  cbn zeta.
  destruct (X10_last_settled_response_wins
              (respond partial_200) (respond scenario_200)
              (world_of sample_account sample_state) partial_200
              (Val [sample_transfer; sample_transfer]) Undefined
              (conj eq_refl eq_refl) eq_refl eq_refl eq_refl)
    as (H1 & H2 & _).
  split; assumption.
Defined.

(** ** The request, again *)

Lemma append_empty_r (a : string) : (a ++ "")%string = a.
Proof. induction a as [ | c a IH ]; cbn; now rewrite ?IH. Qed.

Lemma append_assoc (a b c : string) :
  ((a ++ b) ++ c)%string = (a ++ b ++ c)%string.
Proof. induction a as [ | x a IH ]; cbn; now rewrite ?IH. Qed.

(** The query of the request: [page], [limit], and [type] for a filter that
    is not [all], in this order. *)
Lemma request_url_params (account : Account) (s : AppState) :
  searchParams (request_url account s)
  = [("page", Number_toString (page (pagination s)));
     ("limit", Number_toString (limit (pagination s)))]
    ++ match filter s with
       | F_all => []
       | F_in => [("type", "in")]
       | F_out => [("type", "out")]
       end.
Proof. unfold request_url. destruct (filter s); reflexivity. Qed.

Lemma request_url_base (account : Account) (s : AppState) :
  href_base (request_url account s)
  = ("http://localhost:3001/api/transfers/"
     ++ template_address (address account))%string.
Proof. unfold request_url. destruct (filter s); reflexivity. Qed.

Lemma params_toString_request (P L : string) (f : Filter) :
  params_toString
    ([("page", P); ("limit", L)]
     ++ match f with
        | F_all => []
        | F_in => [("type", "in")]
        | F_out => [("type", "out")]
        end)
  = ("page=" ++ urlencode P ++ "&limit=" ++ urlencode L
     ++ match f with
        | F_all => ""
        | F_in => "&type=in"
        | F_out => "&type=out"
        end)%string.
Proof.
  destruct f; cbn [app params_toString];
    change (urlencode "page") with "page";
    change (urlencode "limit") with "limit";
    change (urlencode "type") with "type";
    change (urlencode "in") with "in";
    change (urlencode "out") with "out";
    cbn [append]; rewrite ?append_empty_r; reflexivity.
Qed.

(** X11: the text passed to [fetch] is the endpoint followed by the account
    address ([undefined] for an account without address), [?page=] and the
    page, [&limit=] and the limit, and, for the filters [in] and [out]
    only, [&type=] and the filter.  Page and limit are printed by
    [toString] and form-encoded; for safe integers that is their decimal
    numeral (from [1e21] on [toString] prints an exponent, whose [+] is sent
    as [%2B]). *)
Theorem X11_request_text (account : Account) (s : AppState) :
  URL_toString (request_url account s)
  = ("http://localhost:3001/api/transfers/"
     ++ match address account with
        | Some a => a
        | None => "undefined"
        end
     ++ "?page=" ++ urlencode (Number_toString (page (pagination s)))
     ++ "&limit=" ++ urlencode (Number_toString (limit (pagination s)))
     ++ match filter s with
        | F_all => ""
        | F_in => "&type=in"
        | F_out => "&type=out"
        end)%string /\
  (is_safe (page (pagination s)) ->
   is_safe (limit (pagination s)) ->
   URL_toString (request_url account s)
   = ("http://localhost:3001/api/transfers/"
      ++ match address account with
         | Some a => a
         | None => "undefined"
         end
      ++ "?page=" ++ NilZero.string_of_int (Z.to_int (page (pagination s)))
      ++ "&limit=" ++ NilZero.string_of_int (Z.to_int (limit (pagination s)))
      ++ match filter s with
         | F_all => ""
         | F_in => "&type=in"
         | F_out => "&type=out"
         end)%string).
Proof.
  assert (E : URL_toString (request_url account s)
              = ("http://localhost:3001/api/transfers/"
                 ++ match address account with
                    | Some a => a
                    | None => "undefined"
                    end
                 ++ "?page="
                 ++ urlencode (Number_toString (page (pagination s)))
                 ++ "&limit="
                 ++ urlencode (Number_toString (limit (pagination s)))
                 ++ match filter s with
                    | F_all => ""
                    | F_in => "&type=in"
                    | F_out => "&type=out"
                    end)%string).
  { unfold URL_toString. rewrite request_url_base.
    pose proof (params_toString_request
                  (Number_toString (page (pagination s)))
                  (Number_toString (limit (pagination s))) (filter s)) as Hq.
    rewrite <- (request_url_params account s) in Hq.
    destruct (searchParams (request_url account s)) as [ | x l ] eqn:El.
    - rewrite request_url_params in El. discriminate El.
    - rewrite Hq. unfold template_address. rewrite append_assoc.
      reflexivity. }
  split; [exact E | ].
  intros Hp Hl. rewrite E.
  rewrite (Number_toString_safe _ (proj1 (is_safe_lt _) Hp)).
  rewrite (Number_toString_safe _ (proj1 (is_safe_lt _) Hl)).
  rewrite !numeral_urlencode. reflexivity.
Qed.

Lemma X11_request_text_witness :
  URL_toString (request_url sample_account sample_state)
  = "http://localhost:3001/api/transfers/0xf39Fd6e51aad88F6F4ce6aB8827279cffFb92266?page=2&limit=10&type=in".
Proof.
  assert (Hs2 : is_safe 2) by (unfold is_safe, MAX_SAFE_INTEGER; cbn; lia).
  assert (Hs10 : is_safe 10) by (unfold is_safe, MAX_SAFE_INTEGER; cbn; lia).
  exact (proj2 (X11_request_text sample_account sample_state) Hs2 Hs10).
Defined.

(** Page [1e21], and page [2 ^ 64], as the code sends them. *)
Example request_text_1e21 :
  URL_toString
    (request_url sample_account
       (mkAppState [] (mkPagination (10 ^ 21) 10 0 0) F_all false "" None))
  = "http://localhost:3001/api/transfers/0xf39Fd6e51aad88F6F4ce6aB8827279cffFb92266?page=1e%2B21&limit=10".
Proof. vm_compute. reflexivity. Qed.

Example request_text_2_64 :
  URL_toString
    (request_url sample_account
       (mkAppState [] (mkPagination (2 ^ 64) 10 0 0) F_out false "" None))
  = "http://localhost:3001/api/transfers/0xf39Fd6e51aad88F6F4ce6aB8827279cffFb92266?page=18446744073709552000&limit=10&type=out".
Proof. vm_compute. reflexivity. Qed.

(** X12: the request tells the page, the limit and the filter: two states
    whose requests have the same URL have the same filter, the same page and
    the same limit (distinct numbers print differently, rounded digits and
    exponents included); and the URL depends on nothing else in the state. *)
Theorem X12_request_determines_page_limit_filter
    (a1 a2 : Account) (s1 s2 : AppState) :
  (request_url a1 s1 = request_url a2 s2 ->
   filter s1 = filter s2 /\
   (is_double (page (pagination s1)) = true ->
    is_double (page (pagination s2)) = true ->
    page (pagination s1) = page (pagination s2)) /\
   (is_double (limit (pagination s1)) = true ->
    is_double (limit (pagination s2)) = true ->
    limit (pagination s1) = limit (pagination s2))) /\
  (address a1 = address a2 ->
   page (pagination s1) = page (pagination s2) ->
   limit (pagination s1) = limit (pagination s2) ->
   filter s1 = filter s2 ->
   request_url a1 s1 = request_url a2 s2).
Proof.
  split.
  - intros H. apply (f_equal searchParams) in H.
    rewrite !request_url_params in H. cbn [app] in H.
    injection H as Hp Hl Hf.
    split; [ | split ].
    + destruct (filter s1), (filter s2); try reflexivity; discriminate Hf.
    + intros H1 H2. now apply Number_toString_inj.
    + intros H1 H2. now apply Number_toString_inj.
  - intros Ha Hp Hl Hf. unfold request_url. now rewrite Ha, Hp, Hl, Hf.
Qed.

Lemma X12_request_witness :
  page (pagination sample_state) = 2 /\
  request_url sample_account sample_state
  = request_url sample_account
      (mkAppState [] (mkPagination 2 10 0 0) F_in true "x" None).
Proof.
  split; [reflexivity | ].
  apply (proj2 (X12_request_determines_page_limit_filter
                  sample_account sample_account sample_state
                  (mkAppState [] (mkPagination 2 10 0 0) F_in true "x" None)));
    reflexivity.
Defined.

(** X13: a change of filter or of page takes effect with the next click on
    Fetch Transfers, and only then.  For a connected account, a filter
    change followed by a click requests the new filter; with the table
    rendered and a page below the last that is a safe integer, Next followed
    by a click requests the following page.  In both cases exactly one
    request is sent. *)
Theorem X13_filter_and_page_reach_the_next_request
    (fetch : fetch_api) (w : World) (f : Filter) :
  status (wallet w) = connected ->
  (exists u,
     outside (steps [ChangeFilter f; ClickFetch fetch] w)
     = outside w ++ [CallFetch (URL_toString u)] /\
     searchParams u
     = [("page", Number_toString (page (pagination (ui w))));
        ("limit", Number_toString (limit (pagination (ui w))))]
       ++ match f with
          | F_all => []
          | F_in => [("type", "in")]
          | F_out => [("type", "out")]
          end) /\
  (transfers (ui w) <> [] ->
   page (pagination (ui w)) < pages (pagination (ui w)) ->
   is_safe (page (pagination (ui w))) ->
   exists u,
     outside (steps [ClickNext; ClickFetch fetch] w)
     = outside w ++ [CallFetch (URL_toString u)] /\
     searchParams_get u "page"
     = Some (Number_toString (page (pagination (ui w)) + 1)) /\
     searchParams_get u "limit"
     = Some (Number_toString (limit (pagination (ui w))))).
Proof.
  intros Hc. split.
  - change (steps [ChangeFilter f; ClickFetch fetch] w)
      with (step (ClickFetch fetch) (step (ChangeFilter f) w)).
    assert (E : step (ChangeFilter f) w = sync (onChange_filter f) w).
    { unfold step, view, App. cbn [controls]. now rewrite Hc. }
    rewrite E. rewrite step_ClickFetch_connected by exact Hc.
    eexists. split.
    + cbn [outside sync onChange_filter setFilter emit fst List.filter
             is_external]. rewrite app_nil_r. reflexivity.
    + rewrite request_url_params. reflexivity.
  - intros Ht Hp Hs.
    change (steps [ClickNext; ClickFetch fetch] w)
      with (step (ClickFetch fetch) (step ClickNext w)).
    rewrite (step_ClickNext_enabled w Ht Hp).
    rewrite step_ClickFetch_connected by exact Hc.
    eexists. split.
    + cbn [outside sync onClick_next setPagination_with emit fst List.filter
             is_external]. rewrite app_nil_r. reflexivity.
    + unfold searchParams_get. rewrite request_url_params.
      destruct (round_double_succ_safe _ Hs) as [Hn _].
      cbn. rewrite Hn. split; reflexivity.
Qed.

Lemma X13_next_request_witness :
  exists u,
    outside (steps [ClickNext; ClickFetch (respond scenario_200)]
               (world_of sample_account sample_state))
    = [CallFetch (URL_toString u)] /\
    searchParams_get u "page" = Some "3" /\
    searchParams_get u "limit" = Some "10".
Proof.
  assert (Ht : transfers (ui (world_of sample_account sample_state)) <> [])
    by discriminate.
  assert (Hp : page (pagination (ui (world_of sample_account sample_state)))
               < pages (pagination (ui (world_of sample_account sample_state))))
    by (cbn; lia).
  assert (Hs : is_safe
                 (page (pagination (ui (world_of sample_account
                                          sample_state)))))
    by (unfold is_safe, MAX_SAFE_INTEGER; cbn; lia).
  exact (proj2 (X13_filter_and_page_reach_the_next_request
                  (respond scenario_200)
                  (world_of sample_account sample_state) F_all eq_refl)
           Ht Hp Hs).
Defined.
